(** * Fig_create: panel-figure pipeline for paired microscopy channels

    A shallow embedding of [Fig_create.py]: the per-image normalisation,
    the false-colouring of one channel, the two-channel merge, the
    scale-bar geometry and the driver that walks over the columns of the
    figure.

    Samples are [float64] in the program.  Here they are exact rationals
    ([Q]): the arithmetic of the program is kept operation by operation,
    rounding is not part of the model, and equalities between computed
    samples are stated with [==] (equality of rationals).  Arrays are a
    shape together with an indexing function, as numpy's own are; the
    samples of an array are those at indices below its shape. *)

From Stdlib Require Import ZArith QArith Qminmax Lqa List String Bool Arith Lia.
Import ListNotations.

Local Open Scope Q_scope.

(** ** Python exceptions and results *)

Inductive exn : Type :=
| FileNotFoundError
| PermissionError
| TiffFileError
| ValueError
| IndexError
| TypeError
| UnboundLocalError.

Inductive result (A : Type) : Type :=
| Ok (a : A)
| Raise (e : exn).

Arguments Ok {A} a.
Arguments Raise {A} e.

Definition rbind {A B : Type} (r : result A) (k : A -> result B) : result B :=
  match r with
  | Ok a => k a
  | Raise e => Raise e
  end.

Declare Scope result_scope.
Delimit Scope result_scope with result.
Notation "x <- r ;; k" := (rbind r (fun x => k))
  (at level 61, r at next level, right associativity) : result_scope.

(** ** Arrays *)

(** A 2-D array of samples, shape [(nrows, ncols)]. *)
Record ndarray2 : Type := mk2 {
  nrows : nat;
  ncols : nat;
  get2 : nat -> nat -> Q
}.

(** A 3-D array of samples, shape [(height, width, depth)]; the last
    axis is the colour channel (0 red, 1 green, 2 blue). *)
Record ndarray3 : Type := mk3 {
  height : nat;
  width : nat;
  depth : nat;
  get3 : nat -> nat -> nat -> Q
}.

Definition shape2 (a : ndarray2) : nat * nat := (nrows a, ncols a).
Definition shape3 (a : ndarray3) : nat * nat * nat := (height a, width a, depth a).

(** [np.zeros((h, w))] and [np.zeros((h, w, 3))]. *)
Definition zeros2 (h w : nat) : ndarray2 := mk2 h w (fun _ _ => 0).
Definition zeros3 (h w d : nat) : ndarray3 := mk3 h w d (fun _ _ _ => 0).

(** An array given by its rows (used to write concrete images). *)
Definition of_rows (w : nat) (rows : list (list Q)) : ndarray2 :=
  mk2 (List.length rows) w (fun i j => nth j (nth i rows []) 0).

(** The samples of an array in row-major order. *)
Definition ravel (a : ndarray2) : list Q :=
  flat_map (fun i => map (get2 a i) (seq 0 (ncols a))) (seq 0 (nrows a)).

(** [a.min()] and [a.max()]: a reduction over all samples, which raises
    [ValueError] on an array without samples. *)
Definition reduce (f : Q -> Q -> Q) (a : ndarray2) : result Q :=
  match ravel a with
  | [] => Raise ValueError
  | x :: xs => Ok (fold_left f xs x)
  end.

Definition amin : ndarray2 -> result Q := reduce Qmin.
Definition amax : ndarray2 -> result Q := reduce Qmax.

(** [a -= s] and [a /= s] with a scalar [s]. *)
Definition isub (a : ndarray2) (s : Q) : ndarray2 :=
  mk2 (nrows a) (ncols a) (fun i j => get2 a i j - s).
Definition idiv (a : ndarray2) (s : Q) : ndarray2 :=
  mk2 (nrows a) (ncols a) (fun i j => get2 a i j / s).

(** [x > y] on samples. *)
Definition Qgt_bool (x y : Q) : bool := negb (Qle_bool x y).

(** ** What the program does to the outside: console and canvas *)

(** [matplotlib.patches.Rectangle((x, y), width, height, color=...)]. *)
Record Rectangle : Type := mkRectangle {
  rect_x : Q;
  rect_y : Q;
  rect_width : Q;
  rect_height : Q;
  rect_color : string
}.

(** An axes of the grid is named by its (row, column) position. *)
Definition axes_id : Type := (nat * nat)%type.

(** The calls that reach the console or the plotting backend, in the
    order the program makes them. *)
Inductive event : Type :=
| Subplots (nr nc : nat)
| SubplotsAdjust
| Print (s : string)
| Imshow (ax : axes_id) (img : ndarray3)
| SetXticks (ax : axes_id)
| SetYticks (ax : axes_id)
| SpinesOff (ax : axes_id)
| AxText (ax : axes_id) (s : string)
| SetTitle (ax : axes_id) (s : string)
| AddPatch (ax : axes_id) (r : Rectangle)
| FigText (s : string)
| Savefig (filename : string)
| Show.

(** A run: the events emitted so far, and a value or the exception that
    stopped the run.  The events emitted before an exception are kept. *)
Definition M (A : Type) : Type := (list event * result A)%type.

Definition ret {A : Type} (a : A) : M A := ([], Ok a).
Definition raise {A : Type} (e : exn) : M A := ([], Raise e).
Definition lift {A : Type} (r : result A) : M A := ([], r).
Definition emit (e : event) : M unit := ([e], Ok tt).
Definition print (s : string) : M unit := emit (Print s).

Definition bind {A B : Type} (m : M A) (k : A -> M B) : M B :=
  match m with
  | (t, Ok a) => let '(t', r) := k a in (t ++ t', r)
  | (t, Raise e) => (t, Raise e)
  end.

Declare Scope run_scope.
Delimit Scope run_scope with run.
Bind Scope run_scope with M.
Notation "x <-- m ;;; k" := (bind m (fun x => k))
  (at level 61, m at next level, right associativity) : run_scope.
Notation "m ;;; k" := (bind m (fun _ => k))
  (at level 61, right associativity) : run_scope.
Local Open Scope run_scope.

Definition trace {A : Type} (m : M A) : list event := fst m.
Definition outcome {A : Type} (m : M A) : result A := snd m.

(** ** load_and_normalize *)

(** What [tifffile.imread] hands back: an array of an integer dtype or
    of a floating dtype.  Only 2-D arrays (one page, one sample per
    pixel) are modelled: they are the ones on which the unpacking
    [h, w = img_data.shape] of the later stages runs. *)
Inductive tiff_array : Type :=
| IntImage (h w : nat) (px : nat -> nat -> Z)
| FloatImage (a : ndarray2).

(** [img.astype(float)]. *)
Definition astype_float (t : tiff_array) : ndarray2 :=
  match t with
  | IntImage h w px => mk2 h w (fun i j => inject_Z (px i j))
  | FloatImage a => a
  end.

(** The min-max scaling of [load_and_normalize] (the statements after
    the [try]).  Next to the scaled image the run records the divisor of
    the [img /= img.max()] statement when that statement is executed. *)
Definition normalize_run (img : ndarray2) : result (ndarray2 * option Q) :=
  (m <- amin img ;;
   let img := isub img m in
   mx <- amax img ;;
   if Qgt_bool mx 0 then
     d <- amax img ;;
     Ok (idiv img d, Some d)
   else Ok (img, None))%result.

Definition normalize (img : ndarray2) : result ndarray2 :=
  (r <- normalize_run img ;; Ok (fst r))%result.

(** The file system as [tifffile.imread] sees it. *)
Definition imread_t : Type := string -> result tiff_array.

(** [load_and_normalize(filepath)].  Only [FileNotFoundError] is caught
    by the [try]; the handler prints one line and returns the black
    100 x 100 square. *)
Definition load_and_normalize (imread : imread_t) (filepath : string) : M ndarray2 :=
  match imread filepath with
  | Raise FileNotFoundError =>
      print ("Error: File not found: " ++ filepath) ;;;
      ret (zeros2 100 100)
  | Raise e => raise e
  | Ok img => lift (normalize (astype_float img))
  end.

(** ** colorize *)

(** [rgb[..., c] = src] with numpy's broadcasting of [src] against the
    leading shape of [rgb]: an axis of [src] of length 1 is repeated,
    any other length must agree, else [ValueError]. *)
Definition broadcastable (n m : nat) : bool := (m =? n)%nat || (m =? 1)%nat.

Definition bidx (m i : nat) : nat := if (m =? 1)%nat then O else i.

Definition set_channel (rgb : ndarray3) (c : nat) (src : ndarray2) : result ndarray3 :=
  if broadcastable (height rgb) (nrows src) && broadcastable (width rgb) (ncols src) then
    Ok (mk3 (height rgb) (width rgb) (depth rgb)
          (fun i j k =>
             if (k =? c)%nat then get2 src (bidx (nrows src) i) (bidx (ncols src) j)
             else get3 rgb i j k))
  else Raise ValueError.

Definition colorize (img_data : ndarray2) (color : string) : result ndarray3 :=
  let '(h, w) := shape2 img_data in
  let rgb := zeros3 h w 3 in
  if String.eqb color "green" then set_channel rgb 1 img_data
  else if String.eqb color "red" then set_channel rgb 0 img_data
  else Ok rgb.

(** ** create_merge *)

(** [np.clip(a, lo, hi)], that is [minimum(maximum(a, lo), hi)]. *)
Definition clip (a : ndarray3) (lo hi : Q) : ndarray3 :=
  mk3 (height a) (width a) (depth a)
    (fun i j k => Qmin (Qmax (get3 a i j k) lo) hi).

Definition create_merge (green_img red_img : ndarray2) : result ndarray3 :=
  let '(h, w) := shape2 green_img in
  let merge := zeros3 h w 3 in
  (merge <- set_channel merge 1 green_img ;;
   merge <- set_channel merge 0 red_img ;;
   Ok (clip merge 0 1))%result.

(** ** Configuration *)

(** The module-level constants of the script. *)
Record config : Type := mkConfig {
  COL_LABELS : list string;
  ROW_LABELS : list string;
  file_matrix : list (list string);
  ADD_SCALEBAR : bool;
  PIXELS_PER_MICRON : Q;
  SCALE_BAR_LENGTH_UM : Q
}.

(** The values the script ships with. *)
Definition shipped : config := {|
  COL_LABELS := ["Naive"; "6h"; "24h"; "7d"]%string;
  ROW_LABELS := ["p-AKT"; "tdTom"; "Merged"]%string;
  file_matrix :=
    [ ["naive_green.tif"; "6h_green.tif"; "24h_green.tif"; "7d_green.tif"];
      ["naive_red.tif"; "6h_red.tif"; "24h_red.tif"; "7d_red.tif"] ]%string;
  ADD_SCALEBAR := true;
  PIXELS_PER_MICRON := 2.5;
  SCALE_BAR_LENGTH_UM := 100
|}.

(** ** Python indexing *)

(** Position selected by index [i] on an axis of length [n]: negative
    indices count from the end, anything else out of range raises
    [IndexError]. *)
Definition py_index (n : nat) (i : Z) : result nat :=
  if ((0 <=? i) && (i <? Z.of_nat n))%Z then Ok (Z.to_nat i)
  else if ((- Z.of_nat n <=? i) && (i <? 0))%Z then Ok (Z.to_nat (Z.of_nat n + i))
  else Raise IndexError.

(** [l[i]] on a list. *)
Definition getitem {A : Type} (l : list A) (i : Z) : result A :=
  (k <- py_index (List.length l) i ;;
   match nth_error l k with
   | Some a => Ok a
   | None => Raise IndexError
   end)%result.

(** What [plt.subplots(nr, nc)] returns for [axes] (with the default
    [squeeze=True]): one axes, a 1-D array when one of the counts is 1,
    a 2-D array otherwise. *)
Inductive axes_array : Type :=
| AxesSingle
| AxesVector (n : nat) (column : bool)
| AxesGrid (nr nc : nat).

(** [plt.subplots(nr, nc, ...)]: the backend's grid specification
    refuses a count of zero with [ValueError]; nothing is created then. *)
Definition subplots (nr nc : nat) : M axes_array :=
  if ((nr =? 0) || (nc =? 0))%nat then raise ValueError
  else
    emit (Subplots nr nc) ;;;
    ret (if ((nr =? 1) && (nc =? 1))%nat then AxesSingle
         else if (nc =? 1)%nat then AxesVector nr true
         else if (nr =? 1)%nat then AxesVector nc false
         else AxesGrid nr nc).

(** [axes[r, c]]: two indices need the 2-D array. *)
Definition axes_getitem (axes : axes_array) (r c : Z) : result axes_id :=
  match axes with
  | AxesSingle => Raise TypeError
  | AxesVector _ _ => Raise IndexError
  | AxesGrid nr nc =>
      (i <- py_index nr r ;;
       j <- py_index nc c ;;
       Ok (i, j))%result
  end.

(** ** Scale bar *)

(** Lines 141-149: the rectangle from the bar length in pixels and the
    shape of the image in [raw_green]. *)
Definition bar_len_px (cfg : config) : Q :=
  SCALE_BAR_LENGTH_UM cfg * PIXELS_PER_MICRON cfg.

Definition scale_bar_rect (cfg : config) (shape : nat * nat) : Rectangle :=
  let '(h, w) := shape in
  let img_h := inject_Z (Z.of_nat h) in
  let img_w := inject_Z (Z.of_nat w) in
  mkRectangle (img_w - bar_len_px cfg - (img_w * 0.05)) (img_h - (img_h * 0.1))
    (bar_len_px cfg) (img_h * 0.02) "yellow".

(** ** generate_figure *)

(** The three statements that strip one axes of ticks and frame. *)
Definition cleanup (ax : axes_id) : M unit :=
  emit (SetXticks ax) ;;;
  emit (SetYticks ax) ;;;
  emit (SpinesOff ax).

(** One pass of the [for col_idx in range(num_cols)] body; the value is
    what the pass leaves in the variable [raw_green]. *)
Definition column (cfg : config) (imread : imread_t) (axes : axes_array)
    (col_idx : nat) : M ndarray2 :=
  let c := Z.of_nat col_idx in
  greens <-- lift (getitem (file_matrix cfg) 0) ;;;
  g_path <-- lift (getitem greens c) ;;;
  reds <-- lift (getitem (file_matrix cfg) 1) ;;;
  r_path <-- lift (getitem reds c) ;;;
  raw_green <-- load_and_normalize imread g_path ;;;
  raw_red <-- load_and_normalize imread r_path ;;;
  vis_green <-- lift (colorize raw_green "green") ;;;
  vis_red <-- lift (colorize raw_red "red") ;;;
  vis_merge <-- lift (create_merge raw_green raw_red) ;;;
  ax_g <-- lift (axes_getitem axes 0 c) ;;;
  emit (Imshow ax_g vis_green) ;;;
  ax_r <-- lift (axes_getitem axes 1 c) ;;;
  emit (Imshow ax_r vis_red) ;;;
  ax_m <-- lift (axes_getitem axes 2 c) ;;;
  emit (Imshow ax_m vis_merge) ;;;
  cleanup ax_g ;;; cleanup ax_r ;;; cleanup ax_m ;;;
  (if (col_idx =? 0)%nat then
     l0 <-- lift (getitem (ROW_LABELS cfg) 0) ;;;
     emit (AxText ax_g l0) ;;;
     l1 <-- lift (getitem (ROW_LABELS cfg) 1) ;;;
     emit (AxText ax_r l1) ;;;
     l2 <-- lift (getitem (ROW_LABELS cfg) 2) ;;;
     emit (AxText ax_m l2)
   else ret tt) ;;;
  ax_t <-- lift (axes_getitem axes 0 c) ;;;
  title <-- lift (getitem (COL_LABELS cfg) c) ;;;
  emit (SetTitle ax_t title) ;;;
  ret raw_green.

(** The [for] loop over the column indices [cols]; [raw_green] is the
    variable as the loop finds it ([None]: not bound yet) and as it
    leaves it. *)
Fixpoint columns (cfg : config) (imread : imread_t) (axes : axes_array)
    (cols : list nat) (raw_green : option ndarray2) : M (option ndarray2) :=
  match cols with
  | [] => ret raw_green
  | col_idx :: rest =>
      g <-- column cfg imread axes col_idx ;;;
      columns cfg imread axes rest (Some g)
  end.

(** Lines 139-150, run when [ADD_SCALEBAR] is set. *)
Definition add_scale_bar (cfg : config) (axes : axes_array)
    (raw_green : option ndarray2) : M unit :=
  last_ax <-- lift (axes_getitem axes 2 (-1)) ;;;
  match raw_green with
  | None => raise UnboundLocalError
  | Some g => emit (AddPatch last_ax (scale_bar_rect cfg (shape2 g)))
  end.

Definition output_filename : string := "final_figure.png".

Definition generate_figure (cfg : config) (imread : imread_t) : M unit :=
  let num_cols := List.length (COL_LABELS cfg) in
  let num_rows := 3%nat in
  axes <-- subplots num_rows num_cols ;;;
  emit SubplotsAdjust ;;;
  print "Generating figure..." ;;;
  raw_green <-- columns cfg imread axes (seq 0 num_cols) None ;;;
  (if ADD_SCALEBAR cfg then add_scale_bar cfg axes raw_green else ret tt) ;;;
  emit (FigText "B") ;;;
  emit (Savefig output_filename) ;;;
  print ("Done! Saved as " ++ output_filename) ;;;
  emit Show.

(** * Vocabulary of the properties *)

(** [i, j] is a position of the array [a]. *)
Definition inside (a : ndarray2) (i j : nat) : Prop :=
  (i < nrows a)%nat /\ (j < ncols a)%nat.

(** All samples of [a] are equal. *)
Definition constant (a : ndarray2) : Prop :=
  forall i j i' j', inside a i j -> inside a i' j' -> get2 a i j == get2 a i' j'.


(** All samples of [a] are zero. *)
Definition all_zero (a : ndarray2) : Prop :=
  forall i j, inside a i j -> get2 a i j == 0.

(** [v] is the least sample of [a], attained at some position. *)
Definition is_min (a : ndarray2) (v : Q) : Prop :=
  (exists i j, inside a i j /\ v = get2 a i j) /\
  (forall i j, inside a i j -> v <= get2 a i j).

(** [v] is the greatest sample of [a], attained at some position. *)
Definition is_max (a : ndarray2) (v : Q) : Prop :=
  (exists i j, inside a i j /\ v = get2 a i j) /\
  (forall i j, inside a i j -> get2 a i j <= v).

(** A file system with one readable image, one file that exists but may
    not be read, and nothing else. *)
Definition demo_files : imread_t :=
  fun p =>
    if String.eqb p "a.tif" then Ok (IntImage 2 2 (fun i j => Z.of_nat (i + 2 * j)))
    else if String.eqb p "locked.tif" then Raise PermissionError
    else Raise FileNotFoundError.

(** The clamp of one sample to the display range, as [np.clip(_, 0, 1)]
    computes it. *)
Definition clip01 (x : Q) : Q := Qmin (Qmax x 0) 1.

(** The run stops with an exception. *)
Definition fails {A : Type} (m : M A) : Prop := exists e, outcome m = Raise e.

(** The run never asks the backend to write the figure file. *)
Definition unsaved {A : Type} (m : M A) : Prop :=
  forall f, ~ In (Savefig f) (trace m).

(** Events that put something on the canvas or into a file. *)
Definition draws (e : event) : bool :=
  match e with
  | Imshow _ _ | AxText _ _ | SetTitle _ _ | AddPatch _ _
  | FigText _ | Savefig _ => true
  | _ => false
  end.

(** The configuration lacks an entry the run will ask for: no Condition
    at all, or, with at least one Condition, fewer than two rows of
    paths, a row of paths shorter than the Condition list, or fewer than
    three row labels. *)
Definition short_config (cfg : config) : Prop :=
  let n := List.length (COL_LABELS cfg) in
  n = 0%nat \/
  ((0 < n)%nat /\ (List.length (file_matrix cfg) < 2)%nat) \/
  (exists r row, (r < 2)%nat /\ nth_error (file_matrix cfg) r = Some row /\
                 (List.length row < n)%nat) \/
  ((0 < n)%nat /\ (List.length (ROW_LABELS cfg) < 3)%nat).

(** Two Conditions, one path in each row of the matrix. *)
Definition two_labels_one_path : config := {|
  COL_LABELS := ["A"; "B"]%string;
  ROW_LABELS := ["G"; "R"; "M"]%string;
  file_matrix := [["a.tif"]; ["a.tif"]]%string;
  ADD_SCALEBAR := true;
  PIXELS_PER_MICRON := 2.5;
  SCALE_BAR_LENGTH_UM := 100
|}.

(** [g] is the green image the loop loads for column [c]. *)
Definition green_of (cfg : config) (imread : imread_t) (c : nat) (g : ndarray2) : Prop :=
  exists greens g_path,
    getitem (file_matrix cfg) 0 = Ok greens /\
    getitem greens (Z.of_nat c) = Ok g_path /\
    outcome (load_and_normalize imread g_path) = Ok g.


(** The samples of an array row by row, each in lowest terms (used to
    display concrete results). *)
Definition rows_of (a : ndarray2) : list (list Q) :=
  map (fun i => map (fun j => Qred (get2 a i j)) (seq 0 (ncols a)))
      (seq 0 (nrows a)).

(** Every sample of [a] lies in the display range. *)
Definition in_unit_range (a : ndarray2) : Prop :=
  forall i j, inside a i j -> 0 <= get2 a i j <= 1.



(** The shape of [b] can be assigned into a plane of the shape of [a]:
    on each axis the lengths agree or [b] has length 1. *)
Definition fits (a b : ndarray2) : Prop :=
  (nrows b = nrows a \/ nrows b = 1%nat) /\
  (ncols b = ncols a \/ ncols b = 1%nat).

(** A file system whose only file decodes to an array of shape (0, 5). *)
Definition empty_image_files : imread_t :=
  fun p =>
    if String.eqb p "empty.tif" then Ok (IntImage 0 5 (fun _ _ => 0%Z))
    else Raise FileNotFoundError.

(** [r] is the red image the loop loads for column [c]. *)
Definition red_of (cfg : config) (imread : imread_t) (c : nat) (r : ndarray2) : Prop :=
  exists reds r_path,
    getitem (file_matrix cfg) 1 = Ok reds /\
    getitem reds (Z.of_nat c) = Ok r_path /\
    outcome (load_and_normalize imread r_path) = Ok r.

(** Projections of a list of events: the axes that received an image,
    the titles set, the texts written inside axes, the patches added and
    the files written, each in the order of the events. *)
Definition panels (t : list event) : list axes_id :=
  flat_map (fun e => match e with Imshow ax _ => [ax] | _ => [] end) t.

Definition titles (t : list event) : list (axes_id * string) :=
  flat_map (fun e => match e with SetTitle ax s => [(ax, s)] | _ => [] end) t.

Definition texts (t : list event) : list (axes_id * string) :=
  flat_map (fun e => match e with AxText ax s => [(ax, s)] | _ => [] end) t.

Definition patches (t : list event) : list (axes_id * Rectangle) :=
  flat_map (fun e => match e with AddPatch ax r => [(ax, r)] | _ => [] end) t.

Definition saved_files (t : list event) : list string :=
  flat_map (fun e => match e with Savefig f => [f] | _ => [] end) t.

(** The three axes of column [c], top to bottom. *)
Definition cells (c : nat) : list axes_id := [(0%nat, c); (1%nat, c); (2%nat, c)].

(** The events of one completed pass of the loop body for column [c]:
    what the two loads print, the three images, the stripping of the
    three axes, the row labels (first column only) and the title. *)
Definition column_events (cfg : config) (c : nat) (tg tr : list event)
    (vis_green vis_red vis_merge : ndarray3) (title : string) : list event :=
  tg ++ tr ++
  [Imshow (0%nat, c) vis_green; Imshow (1%nat, c) vis_red;
   Imshow (2%nat, c) vis_merge] ++
  flat_map (fun ax => [SetXticks ax; SetYticks ax; SpinesOff ax]) (cells c) ++
  (if (c =? 0)%nat then
     map (fun p => AxText (fst p) (snd p)) (combine (cells 0) (firstn 3 (ROW_LABELS cfg)))
   else []) ++
  [SetTitle (0%nat, c) title].

(** Every event of [t] is a printed line. *)
Definition only_prints (t : list event) : Prop :=
  forall e, In e t -> exists s, e = Print s.



(** One Condition only. *)
Definition one_label : config := {|
  COL_LABELS := ["A"]%string;
  ROW_LABELS := ["G"; "R"; "M"]%string;
  file_matrix := [["a.tif"]; ["a.tif"]]%string;
  ADD_SCALEBAR := true;
  PIXELS_PER_MICRON := 2.5;
  SCALE_BAR_LENGTH_UM := 100
|}.

(** Two Conditions; the red file of the first is missing while its green
    file holds a 2 x 2 image. *)
Definition one_red_missing : config := {|
  COL_LABELS := ["A"; "B"]%string;
  ROW_LABELS := ["G"; "R"; "M"]%string;
  file_matrix := [["a.tif"; "a.tif"]; ["gone.tif"; "a.tif"]]%string;
  ADD_SCALEBAR := true;
  PIXELS_PER_MICRON := 2.5;
  SCALE_BAR_LENGTH_UM := 100
|}.

(** The run emits no event that puts something on the canvas or into a
    file. *)
Definition nodraw {A : Type} (m : M A) : Prop :=
  forall ev, In ev (trace m) -> draws ev = false.

(** The configuration [cfg] with surplus entries: paths appended to the
    green and red rows [greens] and [reds], further rows appended to the
    matrix, further labels appended to the row labels. *)
Definition with_extras (cfg : config) (greens reds more_greens more_reds : list string)
    (more_rows : list (list string)) (more_labels : list string) : config := {|
  COL_LABELS := COL_LABELS cfg;
  ROW_LABELS := ROW_LABELS cfg ++ more_labels;
  file_matrix := (greens ++ more_greens) :: (reds ++ more_reds) :: more_rows;
  ADD_SCALEBAR := ADD_SCALEBAR cfg;
  PIXELS_PER_MICRON := PIXELS_PER_MICRON cfg;
  SCALE_BAR_LENGTH_UM := SCALE_BAR_LENGTH_UM cfg
|}.

(** Two Conditions with a path for each; the files of the second are
    missing. *)
Definition two_conditions : config := {|
  COL_LABELS := ["A"; "B"]%string;
  ROW_LABELS := ["G"; "R"; "M"]%string;
  file_matrix := [["a.tif"; "gone.tif"]; ["a.tif"; "gone.tif"]]%string;
  ADD_SCALEBAR := true;
  PIXELS_PER_MICRON := 2.5;
  SCALE_BAR_LENGTH_UM := 100
|}.

(** * Properties *)

(** ** Samples, minimum and maximum *)

Lemma In_ravel (a : ndarray2) (x : Q) :
  In x (ravel a) <-> exists i j, inside a i j /\ x = get2 a i j.
Proof.
  unfold ravel, inside. rewrite in_flat_map. split.
  - intros (i & Hi & Hx). apply in_map_iff in Hx as (j & <- & Hj).
    apply in_seq in Hi, Hj. exists i, j. repeat split; lia.
  - intros (i & j & (Hi & Hj) & ->). exists i. split.
    + apply in_seq. lia.
    + apply in_map. apply in_seq. lia.
Qed.

Lemma Qmin_cases (x y : Q) :
  (Qmin x y = x /\ x <= y) \/ (Qmin x y = y /\ y <= x).
Proof.
  unfold Qmin, GenericMinMax.gmin. destruct (x ?= y) eqn:E.
  - left. split; [reflexivity|]. apply Qeq_alt in E. rewrite E. apply Qle_refl.
  - left. split; [reflexivity|]. apply Qlt_alt in E. apply Qlt_le_weak, E.
  - right. split; [reflexivity|]. apply Qgt_alt in E. apply Qlt_le_weak, E.
Qed.

Lemma Qmax_cases (x y : Q) :
  (Qmax x y = x /\ y <= x) \/ (Qmax x y = y /\ x <= y).
Proof.
  unfold Qmax, GenericMinMax.gmax. destruct (x ?= y) eqn:E.
  - left. split; [reflexivity|]. apply Qeq_alt in E. rewrite E. apply Qle_refl.
  - right. split; [reflexivity|]. apply Qlt_alt in E. apply Qlt_le_weak, E.
  - left. split; [reflexivity|]. apply Qgt_alt in E. apply Qlt_le_weak, E.
Qed.

Lemma fold_Qmin_spec (xs : list Q) (x : Q) :
  In (fold_left Qmin xs x) (x :: xs) /\
  forall y, In y (x :: xs) -> fold_left Qmin xs x <= y.
Proof.
  revert x. induction xs as [|a xs IH]; intros x; simpl.
  - split; [now left|]. intros y [<-|[]]. apply Qle_refl.
  - destruct (IH (Qmin x a)) as [Hin Hle].
    remember (fold_left Qmin xs (Qmin x a)) as v eqn:Hv. clear Hv. split.
    + destruct Hin as [Heq|Hin]; [|right; right; exact Hin].
      destruct (Qmin_cases x a) as [[E _]|[E _]]; rewrite E in Heq; auto.
    + intros y Hy.
      assert (Hxa : v <= Qmin x a) by (apply Hle; now left).
      destruct Hy as [<-|[<-|Hy]].
      * destruct (Qmin_cases x a) as [[E H]|[E H]]; rewrite E in Hxa; lra.
      * destruct (Qmin_cases x a) as [[E H]|[E H]]; rewrite E in Hxa; lra.
      * apply Hle. now right.
Qed.

Lemma fold_Qmax_spec (xs : list Q) (x : Q) :
  In (fold_left Qmax xs x) (x :: xs) /\
  forall y, In y (x :: xs) -> y <= fold_left Qmax xs x.
Proof.
  revert x. induction xs as [|a xs IH]; intros x; simpl.
  - split; [now left|]. intros y [<-|[]]. apply Qle_refl.
  - destruct (IH (Qmax x a)) as [Hin Hle].
    remember (fold_left Qmax xs (Qmax x a)) as v eqn:Hv. clear Hv. split.
    + destruct Hin as [Heq|Hin]; [|right; right; exact Hin].
      destruct (Qmax_cases x a) as [[E _]|[E _]]; rewrite E in Heq; auto.
    + intros y Hy.
      assert (Hxa : Qmax x a <= v) by (apply Hle; now left).
      destruct Hy as [<-|[<-|Hy]].
      * destruct (Qmax_cases x a) as [[E H]|[E H]]; rewrite E in Hxa; lra.
      * destruct (Qmax_cases x a) as [[E H]|[E H]]; rewrite E in Hxa; lra.
      * apply Hle. now right.
Qed.

Lemma amin_spec (a : ndarray2) (v : Q) : amin a = Ok v -> is_min a v.
Proof.
  unfold amin, reduce. destruct (ravel a) as [|x xs] eqn:E; [discriminate|].
  intros [= <-]. destruct (fold_Qmin_spec xs x) as [Hin Hle].
  rewrite <- E in Hin, Hle. split.
  - apply In_ravel, Hin.
  - intros i j Hij. apply Hle. apply In_ravel. now exists i, j.
Qed.

Lemma amax_spec (a : ndarray2) (v : Q) : amax a = Ok v -> is_max a v.
Proof.
  unfold amax, reduce. destruct (ravel a) as [|x xs] eqn:E; [discriminate|].
  intros [= <-]. destruct (fold_Qmax_spec xs x) as [Hin Hle].
  rewrite <- E in Hin, Hle. split.
  - apply In_ravel, Hin.
  - intros i j Hij. apply Hle. apply In_ravel. now exists i, j.
Qed.

Lemma reduce_defined (f : Q -> Q -> Q) (a : ndarray2) (i j : nat) :
  inside a i j -> exists v, reduce f a = Ok v.
Proof.
  intros Hij. unfold reduce. destruct (ravel a) as [|x xs] eqn:E.
  - assert (H : In (get2 a i j) (ravel a)) by (apply In_ravel; now exists i, j).
    rewrite E in H. destruct H.
  - eauto.
Qed.

Lemma reduce_empty (f : Q -> Q -> Q) (a : ndarray2) :
  (forall i j, ~ inside a i j) -> reduce f a = Raise ValueError.
Proof.
  intros H. unfold reduce. destruct (ravel a) as [|x xs] eqn:E; [reflexivity|].
  assert (Hx : In x (ravel a)) by (rewrite E; now left).
  apply In_ravel in Hx as (i & j & Hij & _). destruct (H i j Hij).
Qed.

Lemma Qgt_bool_spec (x y : Q) : Qgt_bool x y = true <-> y < x.
Proof.
  unfold Qgt_bool. rewrite negb_true_iff. split.
  - intros H. apply Qnot_le_lt. intros Hle. apply Qle_bool_iff in Hle. congruence.
  - intros H. destruct (Qle_bool x y) eqn:E; [|reflexivity].
    apply Qle_bool_iff in E. lra.
Qed.

Lemma Qgt_bool_false (x y : Q) : Qgt_bool x y = false <-> x <= y.
Proof.
  unfold Qgt_bool. rewrite negb_false_iff. apply Qle_bool_iff.
Qed.

(** The run of the scaling on an array with at least one sample: both
    reductions are defined, and the branch taken is the one the test
    [img.max() > 0] selects. *)
Lemma normalize_run_inside (img : ndarray2) (i0 j0 : nat) :
  inside img i0 j0 ->
  exists m mx,
    is_min img m /\ is_max (isub img m) mx /\
    normalize_run img =
      Ok (if Qgt_bool mx 0 then (idiv (isub img m) mx, Some mx)
          else (isub img m, None)).
Proof.
  intros Hin. unfold normalize_run.
  destruct (reduce_defined Qmin img i0 j0 Hin) as [m Hm].
  fold amin in Hm. rewrite Hm. simpl.
  destruct (reduce_defined Qmax (isub img m) i0 j0 Hin) as [mx Hmx].
  fold amax in Hmx. rewrite Hmx. simpl.
  exists m, mx. split; [apply amin_spec, Hm|]. split; [apply amax_spec, Hmx|].
  destruct (Qgt_bool mx 0); reflexivity.
Qed.

(** ** Normalisation *)

Example normalize_2x2 :
  match normalize (of_rows 2 [[3; 5]; [7; 11]]) with
  | Ok out => rows_of out
  | Raise _ => []
  end = [[0; 1 # 4]; [1 # 2; 1]].
Proof. reflexivity. Qed.

Example normalize_constant_2x2 :
  match normalize_run (of_rows 2 [[4; 4]; [4; 4]]) with
  | Ok (out, divisor) => (rows_of out, divisor)
  | Raise _ => ([], None)
  end = ([[0; 0]; [0; 0]], None).
Proof. reflexivity. Qed.

(** An array without samples cannot be scaled: the first reduction
    raises. *)
Lemma normalize_empty (img : ndarray2) :
  (forall i j, ~ inside img i j) -> normalize img = Raise ValueError.
Proof.
  intros H. unfold normalize, normalize_run, amin.
  rewrite (reduce_empty Qmin img H). reflexivity.
Qed.



(** C2.  An image whose samples are all equal (and which has a sample)
    is scaled to the all-zero image of the same shape, and the division
    statement is not executed on that run; on every run that does
    execute it, the divisor is strictly positive. *)
Theorem normalize_constant_zero (img : ndarray2) (i0 j0 : nat) :
  inside img i0 j0 -> constant img ->
  (exists out,
     normalize_run img = Ok (out, None) /\ normalize img = Ok out /\
     shape2 out = shape2 img /\ all_zero out) /\
  (forall img' out' d, normalize_run img' = Ok (out', Some d) -> 0 < d).
Proof.
  intros Hin Hc. split.
  - destruct (normalize_run_inside img i0 j0 Hin) as (m & d & Hm & Hd & Hrun).
    destruct Hm as [(im & jm & Him & Em) _].
    destruct Hd as [(id & jd & Hid & Ed) _]. simpl in Ed.
    assert (Hd0 : d <= 0).
    { rewrite Ed, Em. pose proof (Hc id jd im jm Hid Him). lra. }
    apply Qgt_bool_false in Hd0. rewrite Hd0 in Hrun.
    exists (isub img m). split; [exact Hrun|].
    split; [unfold normalize; rewrite Hrun; reflexivity|].
    split; [reflexivity|].
    intros i j Hij. simpl. rewrite Em.
    pose proof (Hc i j im jm Hij Him). lra.
  - intros img' out' d. unfold normalize_run.
    destruct (amin img') as [m|]; simpl; [|discriminate].
    destruct (amax (isub img' m)) as [mx|]; simpl; [|discriminate].
    destruct (Qgt_bool mx 0) eqn:G; [|discriminate].
    intros [= _ <-]. apply Qgt_bool_spec, G.
Qed.

Lemma normalize_constant_zero_witness :
  inside (of_rows 2 [[4; 4]; [4; 4]]) 0 0 /\ constant (of_rows 2 [[4; 4]; [4; 4]]) /\
  (exists out,
     normalize_run (of_rows 2 [[4; 4]; [4; 4]]) = Ok (out, None) /\
     normalize (of_rows 2 [[4; 4]; [4; 4]]) = Ok out /\
     shape2 out = shape2 (of_rows 2 [[4; 4]; [4; 4]]) /\ all_zero out) /\
  (forall img' out' d, normalize_run img' = Ok (out', Some d) -> 0 < d).
Proof.
  assert (Hin : inside (of_rows 2 [[4; 4]; [4; 4]]) 0 0)
    by (unfold inside; simpl; lia).
  assert (Hc : constant (of_rows 2 [[4; 4]; [4; 4]])).
  { intros i j i' j' [Hi Hj] [Hi' Hj']. simpl in *.
    destruct i as [|[|i]]; [| |lia];
      (destruct j as [|[|j]]; [| |lia]);
      (destruct i' as [|[|i']]; [| |lia]);
      (destruct j' as [|[|j']]; [| |lia]); reflexivity. }
  split; [exact Hin|]. split; [exact Hc|].
  exact (normalize_constant_zero _ 0%nat 0%nat Hin Hc).
Defined.

(** C9.  An image whose least sample is 0 and whose greatest sample is 1
    is left unchanged by the scaling: same shape, and at every position
    the same sample.  (The scaling is a function of the image, so two
    runs on the same image agree.) *)
Theorem normalize_idempotent (img : ndarray2) (mn mx : Q) :
  amin img = Ok mn -> mn == 0 ->
  amax img = Ok mx -> mx == 1 ->
  exists out,
    normalize img = Ok out /\ shape2 out = shape2 img /\
    forall i j, inside img i j -> get2 out i j == get2 img i j.
Proof.
  intros Hmn Hmn0 Hmx Hmx1.
  apply amin_spec in Hmn as [(i0 & j0 & Hin & E0) Hlow0].
  apply amax_spec in Hmx as [(i1 & j1 & Hin1 & E1) Hup1].
  destruct (normalize_run_inside img i0 j0 Hin) as (m & d & Hm & Hd & Hrun).
  destruct Hm as [(im & jm & Him & Em) Hlow].
  destruct Hd as [(id & jd & Hid & Ed) Hup]. simpl in Ed.
  assert (Hm0 : m == 0).
  { pose proof (Hlow i0 j0 Hin) as L. pose proof (Hlow0 im jm Him) as L0.
    rewrite E0 in Hmn0, L0. rewrite Em in L |- *. lra. }
  assert (Hd1 : d == 1).
  { pose proof (Hup i1 j1 Hin1) as U. simpl in U.
    pose proof (Hup1 id jd Hid) as V. rewrite E1 in Hmx1, V.
    rewrite Ed in U |- *. lra. }
  assert (Hgt : Qgt_bool d 0 = true) by (apply Qgt_bool_spec; lra).
  rewrite Hgt in Hrun.
  exists (idiv (isub img m) d).
  split; [unfold normalize; rewrite Hrun; reflexivity|].
  split; [reflexivity|].
  intros i j _. simpl. rewrite Hm0, Hd1. field.
Qed.

Lemma normalize_idempotent_witness :
  exists out,
    normalize (of_rows 2 [[0; 0.25]; [0.5; 1]]) = Ok out /\
    shape2 out = shape2 (of_rows 2 [[0; 0.25]; [0.5; 1]]) /\
    forall i j, inside (of_rows 2 [[0; 0.25]; [0.5; 1]]) i j ->
      get2 out i j == get2 (of_rows 2 [[0; 0.25]; [0.5; 1]]) i j.
Proof.
  apply (normalize_idempotent (of_rows 2 [[0; 0.25]; [0.5; 1]]) 0 1);
    reflexivity.
Defined.

(** ** Loading *)




(** ** Colouring *)

Lemma broadcastable_refl (n : nat) : broadcastable n n = true.
Proof. unfold broadcastable. rewrite Nat.eqb_refl. reflexivity. Qed.

Lemma bidx_inside (n i : nat) : (i < n)%nat -> bidx n i = i.
Proof.
  unfold bidx. intros H. destruct (Nat.eqb_spec n 1); [lia|reflexivity].
Qed.

(** C4.  For the colour green (channel 1) or red (channel 0), [colorize]
    returns an array of shape height x width x 3 whose named channel
    holds the samples of the input, position by position, and whose two
    other channels are 0. *)
Theorem colorize_channel (img_data : ndarray2) (color : string) (c : nat) :
  (color = "green"%string /\ c = 1%nat) \/ (color = "red"%string /\ c = 0%nat) ->
  exists rgb,
    colorize img_data color = Ok rgb /\
    shape3 rgb = (nrows img_data, ncols img_data, 3%nat) /\
    forall i j, inside img_data i j ->
      get3 rgb i j c = get2 img_data i j /\
      forall k, (k < 3)%nat -> k <> c -> get3 rgb i j k = 0.
Proof.
  intros H. unfold colorize, set_channel. simpl.
  rewrite !broadcastable_refl. simpl.
  destruct H as [[-> ->]|[-> ->]]; simpl;
    (eexists; split; [reflexivity|]; split; [reflexivity|]);
    intros i j [Hi Hj]; simpl; rewrite !bidx_inside by assumption;
    (split; [reflexivity|]); intros k _ Hk;
    (destruct (Nat.eqb_spec k 1); [congruence|]) || idtac;
    (destruct (Nat.eqb_spec k 0); [congruence|]) || idtac; reflexivity.
Qed.

Lemma colorize_channel_witness :
  exists rgb,
    colorize (of_rows 2 [[0; 0.25]; [0.5; 1]]) "green" = Ok rgb /\
    shape3 rgb = (2%nat, 2%nat, 3%nat) /\
    forall i j, inside (of_rows 2 [[0; 0.25]; [0.5; 1]]) i j ->
      get3 rgb i j 1 = get2 (of_rows 2 [[0; 0.25]; [0.5; 1]]) i j /\
      forall k, (k < 3)%nat -> k <> 1%nat -> get3 rgb i j k = 0.
Proof.
  apply (colorize_channel (of_rows 2 [[0; 0.25]; [0.5; 1]]) "green" 1).
  left. split; reflexivity.
Defined.

(** C10.  For any other colour string [colorize] does not raise and
    returns the all-zero array of shape height x width x 3. *)
Theorem colorize_other_color (img_data : ndarray2) (color : string) :
  color <> "green"%string -> color <> "red"%string ->
  exists rgb,
    colorize img_data color = Ok rgb /\
    shape3 rgb = (nrows img_data, ncols img_data, 3%nat) /\
    forall i j k, get3 rgb i j k = 0.
Proof.
  intros Hg Hr. unfold colorize. simpl.
  apply String.eqb_neq in Hg, Hr. rewrite Hg, Hr.
  eexists. split; [reflexivity|]. split; reflexivity.
Qed.

Lemma colorize_other_color_witness :
  exists rgb,
    colorize (of_rows 2 [[0; 0.25]; [0.5; 1]]) "blue" = Ok rgb /\
    shape3 rgb = (2%nat, 2%nat, 3%nat) /\
    forall i j k, get3 rgb i j k = 0.
Proof.
  apply (colorize_other_color (of_rows 2 [[0; 0.25]; [0.5; 1]]) "blue");
    discriminate.
Defined.

(** ** Merging *)

Lemma clip01_range (x : Q) : 0 <= clip01 x <= 1.
Proof.
  unfold clip01.
  destruct (Qmax_cases x 0) as [[-> H]|[-> H]];
    match goal with |- context [Qmin ?a ?b] =>
      destruct (Qmin_cases a b) as [[-> H']|[-> H']] end; lra.
Qed.

(** The merge of two images of one shape, sample by sample. *)
Lemma create_merge_same_shape (a b : ndarray2) :
  shape2 a = shape2 b ->
  exists m,
    create_merge a b = Ok m /\
    shape3 m = (nrows a, ncols a, 3%nat) /\
    forall i j, inside a i j ->
      get3 m i j 0 = clip01 (get2 b i j) /\
      get3 m i j 1 = clip01 (get2 a i j) /\
      get3 m i j 2 = 0.
Proof.
  unfold shape2. intros [= Hr Hc].
  unfold create_merge, set_channel. simpl.
  rewrite !broadcastable_refl. simpl.
  rewrite <- Hr, <- Hc, !broadcastable_refl. simpl.
  eexists. split; [reflexivity|]. split; [reflexivity|].
  intros i j [Hi Hj]. simpl.
  rewrite !bidx_inside by assumption.
  repeat split; reflexivity.
Qed.

(** C5.  Merging the same two images in the other order gives the same
    composite with the red and green planes exchanged: each input keeps
    its (clamped) content and moves to the other colour; blue is 0 in
    both composites. *)
Theorem create_merge_swap (a b : ndarray2) :
  shape2 a = shape2 b ->
  exists m1 m2,
    create_merge a b = Ok m1 /\ create_merge b a = Ok m2 /\
    shape3 m2 = shape3 m1 /\
    forall i j, inside a i j ->
      get3 m2 i j 0 = get3 m1 i j 1 /\
      get3 m2 i j 1 = get3 m1 i j 0 /\
      get3 m1 i j 1 = clip01 (get2 a i j) /\
      get3 m1 i j 0 = clip01 (get2 b i j) /\
      get3 m1 i j 2 = 0 /\ get3 m2 i j 2 = 0.
Proof.
  intros Hs.
  destruct (create_merge_same_shape a b Hs) as (m1 & E1 & S1 & P1).
  destruct (create_merge_same_shape b a (eq_sym Hs)) as (m2 & E2 & S2 & P2).
  exists m1, m2. split; [exact E1|]. split; [exact E2|].
  unfold shape2 in Hs. injection Hs as Hr Hc.
  split; [rewrite S1, S2; congruence|].
  intros i j Hij.
  assert (Hij' : inside b i j) by (unfold inside in *; rewrite <- Hr, <- Hc; exact Hij).
  destruct (P1 i j Hij) as (R1 & G1 & B1).
  destruct (P2 i j Hij') as (R2 & G2 & B2).
  repeat split; congruence.
Qed.

Lemma create_merge_swap_witness :
  exists m1 m2,
    create_merge (of_rows 2 [[0; 0.25]]) (of_rows 2 [[1; 0.5]]) = Ok m1 /\
    create_merge (of_rows 2 [[1; 0.5]]) (of_rows 2 [[0; 0.25]]) = Ok m2 /\
    shape3 m2 = shape3 m1 /\
    forall i j, inside (of_rows 2 [[0; 0.25]]) i j ->
      get3 m2 i j 0 = get3 m1 i j 1 /\
      get3 m2 i j 1 = get3 m1 i j 0 /\
      get3 m1 i j 1 = clip01 (get2 (of_rows 2 [[0; 0.25]]) i j) /\
      get3 m1 i j 0 = clip01 (get2 (of_rows 2 [[1; 0.5]]) i j) /\
      get3 m1 i j 2 = 0 /\ get3 m2 i j 2 = 0.
Proof.
  apply (create_merge_swap (of_rows 2 [[0; 0.25]]) (of_rows 2 [[1; 0.5]])).
  reflexivity.
Defined.

(** The two orders do differ: the composite is not symmetric in its
    arguments. *)
Example create_merge_order_matters :
  exists m1 m2,
    create_merge (of_rows 1 [[1]]) (of_rows 1 [[0]]) = Ok m1 /\
    create_merge (of_rows 1 [[0]]) (of_rows 1 [[1]]) = Ok m2 /\
    get3 m1 0 0 1 = 1 /\ get3 m2 0 0 1 = 0.
Proof. do 2 eexists. repeat split. Qed.

(** C6.  Every sample of the composite of two images of one shape lies
    in [0, 1], whatever the samples of the inputs are. *)
Theorem create_merge_range (a b : ndarray2) :
  shape2 a = shape2 b ->
  exists m,
    create_merge a b = Ok m /\
    forall i j k,
      (i < height m)%nat -> (j < width m)%nat -> (k < depth m)%nat ->
      0 <= get3 m i j k <= 1.
Proof.
  unfold shape2. intros [= Hr Hc].
  unfold create_merge, set_channel. simpl.
  rewrite !broadcastable_refl. simpl.
  rewrite <- Hr, <- Hc, !broadcastable_refl. simpl.
  eexists. split; [reflexivity|].
  intros i j k _ _ _. simpl. apply clip01_range.
Qed.

Lemma create_merge_range_witness :
  exists m,
    create_merge (of_rows 2 [[-3; 0.25]]) (of_rows 2 [[7; 0.5]]) = Ok m /\
    forall i j k,
      (i < height m)%nat -> (j < width m)%nat -> (k < depth m)%nat ->
      0 <= get3 m i j k <= 1.
Proof.
  apply (create_merge_range (of_rows 2 [[-3; 0.25]]) (of_rows 2 [[7; 0.5]])).
  reflexivity.
Defined.

(** ** Runs *)

Lemma bind_Ok_inv {A B : Type} (m : M A) (k : A -> M B) (b : B) :
  outcome (bind m k) = Ok b ->
  exists a, outcome m = Ok a /\ outcome (k a) = Ok b /\
            trace (bind m k) = trace m ++ trace (k a).
Proof.
  destruct m as [t [a|e]]; unfold bind; simpl; [|discriminate].
  destruct (k a) as [t' r] eqn:E. simpl. intros ->.
  exists a. rewrite E. auto.
Qed.

Lemma fails_bind_l {A B : Type} (m : M A) (k : A -> M B) :
  fails m -> fails (bind m k).
Proof.
  destruct m as [t [a|e]]; intros [e' He]; simpl in He; [discriminate|].
  exists e. reflexivity.
Qed.

Lemma fails_bind_r {A B : Type} (m : M A) (k : A -> M B) :
  (forall a, fails (k a)) -> fails (bind m k).
Proof.
  intros H. destruct m as [t [a|e]].
  - destruct (H a) as [e He]. exists e. unfold bind.
    destruct (k a) as [t' r]. exact He.
  - exists e. reflexivity.
Qed.

Lemma fails_lift {A : Type} (e : exn) : fails (@lift A (Raise e)).
Proof. exists e. reflexivity. Qed.

Lemma unsaved_bind {A B : Type} (m : M A) (k : A -> M B) :
  unsaved m -> (forall a, unsaved (k a)) -> unsaved (bind m k).
Proof.
  intros Hm Hk f. destruct m as [t [a|e]]; unfold bind.
  - specialize (Hk a f). destruct (k a) as [t' r]. simpl in *.
    intros Hin. apply in_app_or in Hin as [Hin|Hin]; [exact (Hm f Hin)|auto].
  - exact (Hm f).
Qed.

Lemma unsaved_lift {A : Type} (r : result A) : unsaved (lift r).
Proof. intros f []. Qed.

Lemma unsaved_ret {A : Type} (a : A) : unsaved (ret a).
Proof. intros f []. Qed.

Lemma unsaved_raise {A : Type} (e : exn) : unsaved (@raise A e).
Proof. intros f []. Qed.

Lemma unsaved_emit (e : event) :
  (forall f, e <> Savefig f) -> unsaved (emit e).
Proof. intros H f [E|[]]. exact (H f E). Qed.

(** A run that is unsaved whenever it fails, extended at the front by a
    run that never saves. *)
Lemma unsaved_when_fails_bind {A B : Type} (m : M A) (k : A -> M B) :
  unsaved m -> (forall a, fails (k a) -> unsaved (k a)) ->
  fails (bind m k) -> unsaved (bind m k).
Proof.
  intros Hm Hk Hf f. destruct m as [t [a|e]]; unfold bind in *.
  - specialize (Hk a). destruct (k a) as [t' r]. simpl in *.
    intros Hin. apply in_app_or in Hin as [Hin|Hin]; [exact (Hm f Hin)|].
    exact (Hk Hf f Hin).
  - exact (Hm f).
Qed.

Ltac unsaved_steps :=
  repeat first
    [ apply unsaved_lift | apply unsaved_ret | apply unsaved_raise
    | apply unsaved_emit; discriminate
    | apply unsaved_bind; [|intros] ].

Lemma unsaved_load (imread : imread_t) (filepath : string) :
  unsaved (load_and_normalize imread filepath).
Proof.
  unfold load_and_normalize.
  destruct (imread filepath) as [img|[]]; unfold print; unsaved_steps.
Qed.

Lemma unsaved_cleanup (ax : axes_id) : unsaved (cleanup ax).
Proof. unfold cleanup. unsaved_steps. Qed.

Lemma unsaved_column (cfg : config) (imread : imread_t) (axes : axes_array)
    (col_idx : nat) : unsaved (column cfg imread axes col_idx).
Proof.
  unfold column.
  repeat first
    [ apply unsaved_load | apply unsaved_cleanup
    | apply unsaved_lift | apply unsaved_ret
    | apply unsaved_emit; discriminate
    | apply unsaved_bind; [|intros]
    | match goal with |- unsaved (if ?c then _ else _) => destruct c end ].
Qed.

Lemma unsaved_columns (cfg : config) (imread : imread_t) (axes : axes_array)
    (cols : list nat) (raw_green : option ndarray2) :
  unsaved (columns cfg imread axes cols raw_green).
Proof.
  revert raw_green. induction cols as [|c cols IH]; intros raw_green; simpl.
  - apply unsaved_ret.
  - apply unsaved_bind; [apply unsaved_column|]. intros g. apply IH.
Qed.

Lemma unsaved_subplots (nr nc : nat) : unsaved (subplots nr nc).
Proof.
  unfold subplots. destruct ((nr =? 0) || (nc =? 0))%nat; unsaved_steps.
Qed.

Lemma unsaved_add_scale_bar (cfg : config) (axes : axes_array)
    (raw_green : option ndarray2) : unsaved (add_scale_bar cfg axes raw_green).
Proof.
  unfold add_scale_bar. apply unsaved_bind; [apply unsaved_lift|].
  intros ax. destruct raw_green; unsaved_steps.
Qed.

(** A failed run of the driver has not reached [plt.savefig]. *)
Lemma generate_figure_fails_unsaved (cfg : config) (imread : imread_t) :
  fails (generate_figure cfg imread) -> unsaved (generate_figure cfg imread).
Proof.
  unfold generate_figure, print.
  apply unsaved_when_fails_bind; [apply unsaved_subplots|]. intros axes.
  apply unsaved_when_fails_bind; [unsaved_steps|]. intros _.
  apply unsaved_when_fails_bind; [unsaved_steps|]. intros _.
  apply unsaved_when_fails_bind; [apply unsaved_columns|]. intros raw_green.
  apply unsaved_when_fails_bind.
  { destruct (ADD_SCALEBAR cfg); [apply unsaved_add_scale_bar|apply unsaved_ret]. }
  intros _.
  apply unsaved_when_fails_bind; [unsaved_steps|]. intros _.
  intros [e He]. discriminate He.
Qed.

(** ** Indexing *)

Lemma py_index_nat (n c : nat) :
  py_index n (Z.of_nat c) = if (c <? n)%nat then Ok c else Raise IndexError.
Proof.
  unfold py_index.
  destruct (Nat.ltb_spec c n) as [H|H].
  - replace ((0 <=? Z.of_nat c)%Z && (Z.of_nat c <? Z.of_nat n)%Z) with true.
    + rewrite Nat2Z.id. reflexivity.
    + symmetry. apply andb_true_iff. split; [apply Z.leb_le|apply Z.ltb_lt]; lia.
  - replace (Z.of_nat c <? Z.of_nat n)%Z with false
      by (symmetry; apply Z.ltb_ge; lia).
    replace (Z.of_nat c <? 0)%Z with false
      by (symmetry; apply Z.ltb_ge; lia).
    rewrite !andb_false_r. reflexivity.
Qed.

Lemma getitem_nat_fail {A : Type} (l : list A) (c : nat) :
  (List.length l <= c)%nat -> getitem l (Z.of_nat c) = Raise IndexError.
Proof.
  intros H. unfold getitem. rewrite py_index_nat.
  destruct (Nat.ltb_spec c (List.length l)); [lia|reflexivity].
Qed.

Lemma getitem_nat_ok {A : Type} (l : list A) (c : nat) (a : A) :
  nth_error l c = Some a -> getitem l (Z.of_nat c) = Ok a.
Proof.
  intros H. unfold getitem. rewrite py_index_nat.
  assert (Hc : (c < List.length l)%nat) by (apply nth_error_Some; congruence).
  destruct (Nat.ltb_spec c (List.length l)); [|lia]. simpl. rewrite H. reflexivity.
Qed.

Lemma py_index_last (n : nat) :
  py_index n (-1) = if (n =? 0)%nat then Raise IndexError else Ok (n - 1)%nat.
Proof.
  unfold py_index. simpl.
  destruct (Nat.eqb_spec n 0) as [->|H]; [reflexivity|].
  replace (- Z.of_nat n <=? -1)%Z with true by (symmetry; apply Z.leb_le; lia).
  simpl. f_equal. lia.
Qed.

Lemma bind_lift_Ok {A B : Type} (a : A) (k : A -> M B) :
  bind (lift (Ok a)) k = k a.
Proof. unfold bind, lift. destruct (k a). reflexivity. Qed.

(** ** Configurations with too few entries *)

Ltac skip_step := apply fails_bind_r; intros ?.

Lemma column_fails_matrix (cfg : config) (imread : imread_t)
    (axes : axes_array) (c : nat) :
  (List.length (file_matrix cfg) < 2)%nat -> fails (column cfg imread axes c).
Proof.
  intros H. unfold column.
  destruct (file_matrix cfg) as [|r0 [|r1 fm]] eqn:E; simpl in H; try lia.
  - apply fails_bind_l. apply fails_lift.
  - do 2 skip_step. apply fails_bind_l. apply fails_lift.
Qed.

Lemma column_fails_row (cfg : config) (imread : imread_t) (axes : axes_array)
    (c r : nat) (row : list string) :
  (r < 2)%nat -> nth_error (file_matrix cfg) r = Some row ->
  (List.length row <= c)%nat -> fails (column cfg imread axes c).
Proof.
  intros Hr Hrow Hlen. unfold column. cbv zeta.
  pose proof (getitem_nat_ok (file_matrix cfg) r row Hrow) as G.
  destruct r as [|[|r]]; [| |lia]; simpl Z.of_nat in G.
  - rewrite G, bind_lift_Ok.
    apply fails_bind_l. rewrite getitem_nat_fail by exact Hlen. apply fails_lift.
  - do 2 skip_step. rewrite G, bind_lift_Ok.
    apply fails_bind_l. rewrite getitem_nat_fail by exact Hlen. apply fails_lift.
Qed.

Lemma column_fails_labels (cfg : config) (imread : imread_t) (axes : axes_array) :
  (List.length (ROW_LABELS cfg) < 3)%nat -> fails (column cfg imread axes 0).
Proof.
  intros H. unfold column. do 18 skip_step. apply fails_bind_l.
  change (0 =? 0)%nat with true. cbv iota.
  destruct (ROW_LABELS cfg) as [|l0 [|l1 [|l2 ls]]] eqn:E; simpl in H; try lia.
  - apply fails_bind_l. apply fails_lift.
  - do 2 skip_step. apply fails_bind_l. apply fails_lift.
  - do 4 skip_step. apply fails_bind_l. apply fails_lift.
Qed.

Lemma columns_fails (cfg : config) (imread : imread_t) (axes : axes_array)
    (cols : list nat) (c : nat) (raw_green : option ndarray2) :
  In c cols -> fails (column cfg imread axes c) ->
  fails (columns cfg imread axes cols raw_green).
Proof.
  intros Hin Hc. revert raw_green.
  induction cols as [|c0 cols IH]; intros raw_green; [destruct Hin|].
  simpl. destruct Hin as [->|Hin].
  - apply fails_bind_l, Hc.
  - apply fails_bind_r. intros g. apply IH, Hin.
Qed.

Lemma generate_figure_fails_at (cfg : config) (imread : imread_t) (c : nat) :
  (c < List.length (COL_LABELS cfg))%nat ->
  (forall axes, fails (column cfg imread axes c)) ->
  fails (generate_figure cfg imread).
Proof.
  intros Hc Hcol. unfold generate_figure. do 3 skip_step.
  apply fails_bind_l. apply (columns_fails _ _ _ _ c); [|apply Hcol].
  apply in_seq. lia.
Qed.

(** ** Configuration errors *)

Example two_labels_one_path_run :
  outcome (generate_figure two_labels_one_path demo_files) = Raise IndexError /\
  List.length (filter draws (trace (generate_figure two_labels_one_path demo_files)))
    = 7%nat.
Proof. split; reflexivity. Qed.

(** C8, as the code has it.  When the configuration lacks an entry the
    run asks for, the run stops with an exception and [plt.savefig] is
    never called: no figure file is written. *)
Theorem short_config_fails_unsaved (cfg : config) (imread : imread_t) :
  short_config cfg ->
  fails (generate_figure cfg imread) /\ unsaved (generate_figure cfg imread).
Proof.
  intros H.
  assert (Hf : fails (generate_figure cfg imread)).
  { destruct H as [H|[[Hn H]|[(r & row & Hr & Hrow & Hlen)|[Hn H]]]].
    - unfold generate_figure. rewrite H. apply fails_bind_l.
      exists ValueError. reflexivity.
    - apply (generate_figure_fails_at cfg imread 0 Hn).
      intros axes. apply column_fails_matrix, H.
    - apply (generate_figure_fails_at cfg imread (List.length row) Hlen).
      intros axes. apply (column_fails_row _ _ _ _ r row Hr Hrow). lia.
    - apply (generate_figure_fails_at cfg imread 0 Hn).
      intros axes. apply column_fails_labels, H. }
  split; [exact Hf|]. apply generate_figure_fails_unsaved, Hf.
Qed.

Lemma short_config_fails_unsaved_witness :
  short_config two_labels_one_path /\
  fails (generate_figure two_labels_one_path demo_files) /\
  unsaved (generate_figure two_labels_one_path demo_files).
Proof.
  assert (H : short_config two_labels_one_path).
  { right. right. left. exists 0%nat, ["a.tif"%string].
    repeat split; simpl; lia. }
  split; [exact H|].
  exact (short_config_fails_unsaved two_labels_one_path demo_files H).
Defined.

(** C8, as the specification words it, fails: with two Conditions and
    one path per row the run stops at the second column, after the three
    panels of the first column have been drawn. *)
Lemma short_config_draws_before_failing :
  ~ (forall cfg imread,
       short_config cfg ->
       fails (generate_figure cfg imread) /\
       forall ev, In ev (trace (generate_figure cfg imread)) -> draws ev = false).
Proof.
  intros H.
  assert (Hs : short_config two_labels_one_path).
  { right. right. left. exists 0%nat, ["a.tif"%string].
    repeat split; simpl; lia. }
  destruct (H two_labels_one_path demo_files Hs) as [_ Hd].
  specialize (Hd (SetTitle (0%nat, 0%nat) "A")).
  assert (Hin : In (SetTitle (0%nat, 0%nat) "A")
                   (trace (generate_figure two_labels_one_path demo_files))).
  { vm_compute. do 18 right. left. reflexivity. }
  specialize (Hd Hin). discriminate Hd.
Qed.

(** ** Runs that complete *)

Ltac bind_inv H x Hx :=
  apply bind_Ok_inv in H as (x & Hx & H & _).

Lemma column_Ok (cfg : config) (imread : imread_t) (axes : axes_array)
    (c : nat) (g : ndarray2) :
  outcome (column cfg imread axes c) = Ok g ->
  green_of cfg imread c g /\
  exists ax, axes_getitem axes 2 (Z.of_nat c) = Ok ax.
Proof.
  unfold column. cbv zeta. intros H.
  bind_inv H greens Hgreens. bind_inv H g_path Hg_path.
  bind_inv H reds Hreds. bind_inv H r_path Hr_path.
  bind_inv H raw_green Hraw_green. bind_inv H raw_red Hraw_red.
  bind_inv H vis_green Hvis_green. bind_inv H vis_red Hvis_red.
  bind_inv H vis_merge Hvis_merge.
  bind_inv H ax_g Hax_g. bind_inv H u1 Hu1.
  bind_inv H ax_r Hax_r. bind_inv H u2 Hu2.
  bind_inv H ax_m Hax_m. bind_inv H u3 Hu3.
  bind_inv H u4 Hu4. bind_inv H u5 Hu5. bind_inv H u6 Hu6.
  bind_inv H u7 Hu7.
  bind_inv H ax_t Hax_t. bind_inv H title Htitle. bind_inv H u8 Hu8.
  simpl in H. injection H as <-.
  split.
  - exists greens, g_path. auto.
  - exists ax_m. exact Hax_m.
Qed.

(** What the loop leaves in [raw_green] when it completes. *)
Lemma columns_Ok (cfg : config) (imread : imread_t) (axes : axes_array)
    (cols : list nat) (rg rg' : option ndarray2) :
  outcome (columns cfg imread axes cols rg) = Ok rg' ->
  (cols = [] /\ rg' = rg) \/
  (exists g, cols <> [] /\ rg' = Some g /\ green_of cfg imread (last cols 0%nat) g /\
             exists ax, axes_getitem axes 2 (Z.of_nat (last cols 0%nat)) = Ok ax).
Proof.
  revert rg. induction cols as [|c cols IH]; intros rg H.
  - left. simpl in H. injection H as <-. auto.
  - right. simpl in H. bind_inv H g Hg.
    apply column_Ok in Hg as [Hgreen Hax].
    destruct (IH _ H) as [[-> ->]|(g' & Hne & -> & Hgreen' & Hax')].
    + exists g. repeat split; [discriminate|exact Hgreen|exact Hax].
    + exists g'. split; [discriminate|]. split; [reflexivity|].
      destruct cols as [|c' cols]; [contradiction|]. split; assumption.
Qed.

Lemma last_seq (n : nat) : last (seq 0 (S n)) 0%nat = n.
Proof. rewrite seq_S. apply last_last. Qed.



(** ** Scale bar *)



(** * Further properties *)

(** ** Normalisation on any image *)

(** The scaling on an image with a sample, with the two cases of the
    test spelled out. *)
Lemma normalize_inside (img : ndarray2) (i0 j0 : nat) :
  inside img i0 j0 ->
  exists m d out,
    is_min img m /\ is_max (isub img m) d /\
    normalize img = Ok out /\ shape2 out = shape2 img /\
    ((0 < d /\ forall i j, get2 out i j = (get2 img i j - m) / d) \/
     (d == 0 /\ (forall i j, get2 out i j = get2 img i j - m) /\
      forall i j, inside img i j -> get2 img i j - m == 0)).
Proof.
  intros Hin.
  destruct (normalize_run_inside img i0 j0 Hin) as (m & d & Hm & Hd & Hrun).
  unfold normalize. rewrite Hrun.
  destruct (Qgt_bool d 0) eqn:G.
  - exists m, d, (idiv (isub img m) d).
    repeat split; try apply Hm; try apply Hd.
    left. split; [apply Qgt_bool_spec, G|]. reflexivity.
  - exists m, d, (isub img m).
    repeat split; try apply Hm; try apply Hd.
    right. apply Qgt_bool_false in G.
    destruct Hm as [(im & jm & Him & Em) Hlow].
    destruct Hd as [_ Hup].
    assert (Hd0 : d == 0).
    { pose proof (Hup im jm Him) as U. simpl in U. rewrite <- Em in U. lra. }
    split; [exact Hd0|]. split; [reflexivity|].
    intros i j Hij. pose proof (Hup i j Hij) as U. simpl in U.
    pose proof (Hlow i j Hij). lra.
Qed.



(** X2.  The scaling keeps the order of the samples: a sample that is
    not above another before the scaling is not above it after. *)
Theorem normalize_monotone (img out : ndarray2) (i j i' j' : nat) :
  normalize img = Ok out ->
  inside img i j -> inside img i' j' ->
  get2 img i j <= get2 img i' j' ->
  get2 out i j <= get2 out i' j'.
Proof.
  intros Hn Hij Hij' Hle.
  destruct (normalize_inside img i j Hij)
    as (m & d & out' & _ & _ & Hn' & _ & Hcase).
  rewrite Hn in Hn'. injection Hn' as <-.
  destruct Hcase as [[Hpos Hout]|(_ & Hout & _)]; rewrite !Hout.
  - unfold Qdiv. apply Qmult_le_compat_r; [lra|].
    apply Qlt_le_weak, Qinv_lt_0_compat, Hpos.
  - lra.
Qed.

Lemma normalize_monotone_witness :
  exists out,
    normalize (of_rows 2 [[3; 5]; [7; 11]]) = Ok out /\
    get2 out 0 1 <= get2 out 1 0.
Proof.
  eexists. split; [reflexivity|].
  apply (normalize_monotone (of_rows 2 [[3; 5]; [7; 11]]) _ 0 1 1 0);
    [reflexivity | unfold inside; simpl; lia | unfold inside; simpl; lia
    | vm_compute; discriminate].
Defined.







(** ** The loader on any file system *)



(** X5.  A file that decodes to an array without samples is not
    replaced by the placeholder: the first reduction raises
    [ValueError], which the loader does not catch, and nothing is
    printed. *)
Theorem load_empty_raises (imread : imread_t) (filepath : string) (img : tiff_array) :
  imread filepath = Ok img ->
  (forall i j, ~ inside (astype_float img) i j) ->
  load_and_normalize imread filepath = ([], Raise ValueError).
Proof.
  intros Hread Hempty. unfold load_and_normalize. rewrite Hread.
  rewrite (normalize_empty _ Hempty). reflexivity.
Qed.

Lemma load_empty_raises_witness :
  load_and_normalize empty_image_files "empty.tif" = ([], Raise ValueError).
Proof.
  apply (load_empty_raises empty_image_files "empty.tif"
           (IntImage 0 5 (fun _ _ => 0%Z))).
  - reflexivity.
  - intros i j [H _]. simpl in H. lia.
Defined.



(** ** Colouring and merging on any input *)

(** X7.  [colorize] never raises, whatever the colour string: it returns
    an array of shape height x width x 3 whose blue channel is 0 and
    whose every sample is 0 or the input sample at that position. *)
Theorem colorize_total (img_data : ndarray2) (color : string) :
  exists rgb,
    colorize img_data color = Ok rgb /\
    shape3 rgb = (nrows img_data, ncols img_data, 3%nat) /\
    forall i j, inside img_data i j ->
      get3 rgb i j 2 = 0 /\
      forall k, get3 rgb i j k = 0 \/ get3 rgb i j k = get2 img_data i j.
Proof.
  unfold colorize, set_channel. simpl. rewrite !broadcastable_refl. simpl.
  destruct (String.eqb color "green"); [|destruct (String.eqb color "red")];
    (eexists; split; [reflexivity|]; split; [reflexivity|]);
    intros i j [Hi Hj]; simpl; rewrite ?bidx_inside by assumption;
    (split; [reflexivity|]); intros k;
    try (destruct (k =? 1)%nat; auto);
    try (destruct (k =? 0)%nat; auto); auto.
Qed.

Lemma colorize_total_witness :
  exists rgb,
    colorize (of_rows 2 [[0; 0.25]; [0.5; 1]]) "Green" = Ok rgb /\
    shape3 rgb = (2%nat, 2%nat, 3%nat) /\
    forall i j, inside (of_rows 2 [[0; 0.25]; [0.5; 1]]) i j ->
      get3 rgb i j 2 = 0 /\
      forall k, get3 rgb i j k = 0 \/
                get3 rgb i j k = get2 (of_rows 2 [[0; 0.25]; [0.5; 1]]) i j.
Proof.
  exact (colorize_total (of_rows 2 [[0; 0.25]; [0.5; 1]]) "Green").
Defined.

Lemma broadcastable_spec (n m : nat) :
  broadcastable n m = true <-> (m = n \/ m = 1%nat).
Proof.
  unfold broadcastable. rewrite orb_true_iff, !Nat.eqb_eq. reflexivity.
Qed.

Lemma fits_spec (a b : ndarray2) :
  broadcastable (nrows a) (nrows b) && broadcastable (ncols a) (ncols b) = true
  <-> fits a b.
Proof.
  unfold fits. rewrite andb_true_iff, !broadcastable_spec. reflexivity.
Qed.

(** X8.  The merge takes its shape from its first argument.  It returns
    a composite exactly when the second argument fits that shape (on
    each axis the same length, or length 1); otherwise it raises
    [ValueError].  The green plane of the composite is the clamped first
    argument. *)
Theorem create_merge_outcome (a b : ndarray2) :
  (fits a b ->
     exists m,
       create_merge a b = Ok m /\
       shape3 m = (nrows a, ncols a, 3%nat) /\
       forall i j, inside a i j -> get3 m i j 1 = clip01 (get2 a i j)) /\
  (~ fits a b -> create_merge a b = Raise ValueError).
Proof.
  unfold create_merge, set_channel. simpl. rewrite !broadcastable_refl. simpl.
  destruct (broadcastable (nrows a) (nrows b) && broadcastable (ncols a) (ncols b))
    eqn:E.
  - split; [|intros H; exfalso; apply H, fits_spec, E].
    intros _. eexists. split; [reflexivity|]. split; [reflexivity|].
    intros i j [Hi Hj]. simpl. rewrite !bidx_inside by assumption. reflexivity.
  - split; [|reflexivity].
    intros H. apply fits_spec in H. congruence.
Qed.

Lemma create_merge_outcome_witness :
  (exists m,
     create_merge (of_rows 2 [[0; 0.25]; [0.5; 1]]) (of_rows 1 [[0.75]]) = Ok m /\
     shape3 m = (2%nat, 2%nat, 3%nat) /\
     forall i j, inside (of_rows 2 [[0; 0.25]; [0.5; 1]]) i j ->
       get3 m i j 1 = clip01 (get2 (of_rows 2 [[0; 0.25]; [0.5; 1]]) i j)) /\
  create_merge (of_rows 2 [[0; 0.25]; [0.5; 1]]) (zeros2 100 100) = Raise ValueError.
Proof.
  split.
  - apply (create_merge_outcome (of_rows 2 [[0; 0.25]; [0.5; 1]]) (of_rows 1 [[0.75]])).
    split; right; reflexivity.
  - apply (create_merge_outcome (of_rows 2 [[0; 0.25]; [0.5; 1]]) (zeros2 100 100)).
    intros [[H|H] _]; discriminate H.
Defined.

Lemma clip01_id (x : Q) : 0 <= x <= 1 -> clip01 x = x.
Proof.
  intros [H0 H1]. unfold clip01.
  assert (E : Qmax x 0 = x).
  { unfold Qmax, GenericMinMax.gmax. destruct (x ?= 0) eqn:C; try reflexivity.
    apply Qlt_alt in C. lra. }
  rewrite E. unfold Qmin, GenericMinMax.gmin.
  destruct (x ?= 1) eqn:C; try reflexivity.
  apply Qgt_alt in C. lra.
Qed.

(** X9.  On two images of one shape with samples in [0, 1] the composite
    is the sum of the two coloured images: the clamp changes nothing,
    green comes from the first argument, red from the second. *)
Theorem create_merge_sum_of_colorized (a b : ndarray2) :
  shape2 a = shape2 b -> in_unit_range a -> in_unit_range b ->
  exists m g r,
    create_merge a b = Ok m /\
    colorize a "green" = Ok g /\ colorize b "red" = Ok r /\
    shape3 m = shape3 g /\ shape3 m = shape3 r /\
    forall i j k, inside a i j -> (k < 3)%nat ->
      get3 m i j k == get3 g i j k + get3 r i j k.
Proof.
  intros Hs Ha Hb.
  destruct (create_merge_same_shape a b Hs) as (m & Hm & Sm & Pm).
  unfold shape2 in Hs. injection Hs as Hr Hc.
  unfold colorize, set_channel. simpl. rewrite !broadcastable_refl. simpl.
  exists m. do 2 eexists. split; [exact Hm|].
  split; [reflexivity|]. split; [reflexivity|].
  split; [rewrite Sm; reflexivity|].
  split; [rewrite Sm, Hr, Hc; reflexivity|].
  intros i j k Hij Hk.
  assert (Hij' : inside b i j) by (unfold inside in *; rewrite <- Hr, <- Hc; exact Hij).
  destruct (Pm i j Hij) as (R & G & B).
  destruct Hij as [Hi Hj]. destruct Hij' as [Hi' Hj'].
  destruct k as [|[|[|k]]]; [| | |lia]; simpl;
    rewrite ?bidx_inside by assumption.
  - rewrite R, clip01_id by (apply Hb; split; assumption). ring.
  - rewrite G, clip01_id by (apply Ha; split; assumption). ring.
  - rewrite B. ring.
Qed.

Lemma create_merge_sum_of_colorized_witness :
  exists m g r,
    create_merge (of_rows 2 [[0; 0.25]]) (of_rows 2 [[1; 0.5]]) = Ok m /\
    colorize (of_rows 2 [[0; 0.25]]) "green" = Ok g /\
    colorize (of_rows 2 [[1; 0.5]]) "red" = Ok r /\
    shape3 m = shape3 g /\ shape3 m = shape3 r /\
    forall i j k, inside (of_rows 2 [[0; 0.25]]) i j -> (k < 3)%nat ->
      get3 m i j k == get3 g i j k + get3 r i j k.
Proof.
  apply (create_merge_sum_of_colorized (of_rows 2 [[0; 0.25]]) (of_rows 2 [[1; 0.5]])).
  - reflexivity.
  - intros i j [Hi Hj]. simpl in *.
    destruct i as [|i]; [|lia]. destruct j as [|[|j]]; [| |lia];
      simpl; split; vm_compute; discriminate.
  - intros i j [Hi Hj]. simpl in *.
    destruct i as [|i]; [|lia]. destruct j as [|[|j]]; [| |lia];
      simpl; split; vm_compute; discriminate.
Defined.

(** ** The events of a completed run *)

Ltac bind_tr H x Hx :=
  let T := fresh "T" in
  apply bind_Ok_inv in H as (x & Hx & H & T);
  rewrite T; clear T; cbv beta in H |- *.

Lemma only_prints_load (imread : imread_t) (filepath : string) :
  only_prints (trace (load_and_normalize imread filepath)).
Proof.
  unfold load_and_normalize.
  destruct (imread filepath) as [img|[]]; simpl; intros e [];
    try contradiction. subst e. eauto.
Qed.

Lemma axes_grid_item (nr nc r c : nat) (ax : axes_id) :
  axes_getitem (AxesGrid nr nc) (Z.of_nat r) (Z.of_nat c) = Ok ax ->
  ax = (r, c) /\ (r < nr)%nat /\ (c < nc)%nat.
Proof.
  unfold axes_getitem. rewrite !py_index_nat.
  destruct (Nat.ltb_spec r nr); simpl; [|discriminate].
  destruct (Nat.ltb_spec c nc); simpl; [|discriminate].
  intros [= <-]. auto.
Qed.

Lemma getitem_nat_inv {A : Type} (l : list A) (c : nat) (a : A) :
  getitem l (Z.of_nat c) = Ok a -> nth_error l c = Some a.
Proof.
  unfold getitem. rewrite py_index_nat.
  destruct (c <? List.length l)%nat; simpl; [|discriminate].
  destruct (nth_error l c); [congruence|discriminate].
Qed.

Lemma getitem_firstn3 (l : list string) (a b c : string) :
  getitem l 0 = Ok a -> getitem l 1 = Ok b -> getitem l 2 = Ok c ->
  firstn 3 l = [a; b; c].
Proof.
  intros Ha Hb Hc.
  apply (getitem_nat_inv l 0) in Ha. apply (getitem_nat_inv l 1) in Hb.
  apply (getitem_nat_inv l 2) in Hc.
  destruct l as [|x [|y [|z l]]]; simpl in *; congruence.
Qed.

(** One completed pass of the loop body over a grid of axes: its events,
    in order, and where the three images come from. *)
Lemma column_trace (cfg : config) (imread : imread_t) (nc c : nat) (g : ndarray2) :
  outcome (column cfg imread (AxesGrid 3 nc) c) = Ok g ->
  exists r tg tr vis_green vis_red vis_merge title,
    green_of cfg imread c g /\ red_of cfg imread c r /\
    colorize g "green" = Ok vis_green /\ colorize r "red" = Ok vis_red /\
    create_merge g r = Ok vis_merge /\
    only_prints tg /\ only_prints tr /\
    getitem (COL_LABELS cfg) (Z.of_nat c) = Ok title /\
    (c < nc)%nat /\
    (c = 0%nat -> (3 <= List.length (ROW_LABELS cfg))%nat) /\
    trace (column cfg imread (AxesGrid 3 nc) c) =
      column_events cfg c tg tr vis_green vis_red vis_merge title.
Proof.
  unfold column. cbv zeta. intros H.
  bind_tr H greens Hgreens. bind_tr H g_path Hg_path.
  bind_tr H reds Hreds. bind_tr H r_path Hr_path.
  bind_tr H raw_green Hraw_green. bind_tr H raw_red Hraw_red.
  bind_tr H vis_green Hvis_green. bind_tr H vis_red Hvis_red.
  bind_tr H vis_merge Hvis_merge.
  bind_tr H ax_g Hax_g. bind_tr H u1 Hu1.
  bind_tr H ax_r Hax_r. bind_tr H u2 Hu2.
  bind_tr H ax_m Hax_m. bind_tr H u3 Hu3.
  bind_tr H u4 Hu4. bind_tr H u5 Hu5. bind_tr H u6 Hu6.
  bind_tr H u7 Hu7.
  bind_tr H ax_t Hax_t. bind_tr H title Htitle. bind_tr H u8 Hu8.
  simpl in H. injection H as <-.
  simpl in Hgreens, Hg_path, Hreds, Hr_path, Hvis_green, Hvis_red, Hvis_merge,
    Htitle.
  change 0%Z with (Z.of_nat 0) in Hax_g, Hax_t.
  change 1%Z with (Z.of_nat 1) in Hax_r.
  change 2%Z with (Z.of_nat 2) in Hax_m.
  apply axes_grid_item in Hax_g as (-> & _ & Hc).
  apply axes_grid_item in Hax_r as (-> & _ & _).
  apply axes_grid_item in Hax_m as (-> & _ & _).
  apply axes_grid_item in Hax_t as (-> & _ & _).
  exists raw_red, (trace (load_and_normalize imread g_path)),
    (trace (load_and_normalize imread r_path)), vis_green, vis_red, vis_merge, title.
  split; [exists greens, g_path; auto|].
  split; [exists reds, r_path; auto|].
  do 3 (split; [assumption|]).
  do 2 (split; [apply only_prints_load|]).
  split; [exact Htitle|]. split; [exact Hc|].
  unfold column_events.
  destruct (Nat.eqb_spec c 0) as [->|Hne]; cbv iota in Hu7 |- *.
  - bind_tr Hu7 l0 Hl0. bind_tr Hu7 v1 Hv1.
    bind_tr Hu7 l1 Hl1. bind_tr Hu7 v2 Hv2.
    bind_tr Hu7 l2 Hl2.
    simpl in Hl0, Hl1, Hl2.
    rewrite (getitem_firstn3 _ _ _ _ Hl0 Hl1 Hl2).
    split.
    + intros _. apply (getitem_nat_inv _ 2) in Hl2.
      assert (Hlt : (2 < List.length (ROW_LABELS cfg))%nat)
        by (apply nth_error_Some; congruence).
      lia.
    + simpl. rewrite ?app_nil_r. reflexivity.
  - split; [intros E; contradiction|]. simpl. rewrite ?app_nil_r. reflexivity.
Qed.

Lemma columns_In (cfg : config) (imread : imread_t) (axes : axes_array)
    (cols : list nat) (rg rg' : option ndarray2) (c : nat) :
  outcome (columns cfg imread axes cols rg) = Ok rg' -> In c cols ->
  exists g,
    outcome (column cfg imread axes c) = Ok g /\
    incl (trace (column cfg imread axes c))
         (trace (columns cfg imread axes cols rg)).
Proof.
  revert rg. induction cols as [|c0 cols IH]; intros rg H Hin; [destruct Hin|].
  simpl in H |- *. apply bind_Ok_inv in H as (g0 & Hg0 & H & T). rewrite T.
  destruct Hin as [->|Hin].
  - exists g0. split; [exact Hg0|]. apply incl_appl, incl_refl.
  - destruct (IH _ H Hin) as (g & Hg & Hincl).
    exists g. split; [exact Hg|]. apply incl_appr, Hincl.
Qed.

Section Projection.

Context {X : Type} (p : event -> list X) (expected : nat -> list X).
Context (cfg : config) (imread : imread_t) (axes : axes_array).

Hypothesis column_proj :
  forall c g,
    outcome (column cfg imread axes c) = Ok g ->
    flat_map p (trace (column cfg imread axes c)) = expected c.

(** A projection of the events of the completed loop is the
    concatenation of its values on the passes. *)
Lemma columns_proj (cols : list nat) (rg rg' : option ndarray2) :
  outcome (columns cfg imread axes cols rg) = Ok rg' ->
  flat_map p (trace (columns cfg imread axes cols rg)) = flat_map expected cols.
Proof.
  revert rg. induction cols as [|c cols IH]; intros rg H; [reflexivity|].
  simpl in H |- *. apply bind_Ok_inv in H as (g & Hg & H & T).
  rewrite T, flat_map_app, (column_proj c g Hg), (IH _ H). reflexivity.
Qed.

End Projection.

Lemma flat_map_only_prints {X : Type} (p : event -> list X) (t : list event) :
  (forall s, p (Print s) = []) -> only_prints t -> flat_map p t = [].
Proof.
  intros Hp Ht. induction t as [|e t IH]; [reflexivity|].
  simpl. destruct (Ht e (or_introl eq_refl)) as [s ->]. rewrite Hp. simpl.
  apply IH. intros e' He'. apply Ht. now right.
Qed.

Lemma flat_map_skips {X Y : Type} (p : event -> list X) (f : Y -> event)
    (l : list Y) :
  (forall y, p (f y) = []) -> flat_map p (map f l) = [].
Proof.
  intros H. induction l as [|y l IH]; [reflexivity|].
  simpl. rewrite H, IH. reflexivity.
Qed.

(** The completed run as a whole: at least two Conditions, and the
    events in order. *)
Lemma generate_figure_trace (cfg : config) (imread : imread_t) :
  outcome (generate_figure cfg imread) = Ok tt ->
  let n := List.length (COL_LABELS cfg) in
  (2 <= n)%nat /\
  exists g,
    outcome (columns cfg imread (AxesGrid 3 n) (seq 0 n) None) = Ok (Some g) /\
    trace (generate_figure cfg imread) =
      [Subplots 3 n; SubplotsAdjust; Print "Generating figure..."] ++
      trace (columns cfg imread (AxesGrid 3 n) (seq 0 n) None) ++
      (if ADD_SCALEBAR cfg
       then [AddPatch (2%nat, (n - 1)%nat) (scale_bar_rect cfg (shape2 g))]
       else []) ++
      [FigText "B"; Savefig output_filename;
       Print ("Done! Saved as " ++ output_filename); Show].
Proof.
  intros H n. unfold generate_figure in *. fold n in H |- *.
  bind_tr H axes Haxes. bind_tr H u1 Hu1. bind_tr H u2 Hu2.
  bind_tr H rg Hcols. bind_tr H u3 Hpatch.
  clear H Hu1 Hu2.
  assert (Hn : n <> 0%nat).
  { intros E. rewrite E in Haxes. discriminate Haxes. }
  destruct n as [|n']; [congruence|].
  apply columns_Ok in Hcols as Hlast.
  destruct Hlast as [[E _]|(g & _ & -> & _ & ax & Hax)]; [discriminate E|].
  rewrite last_seq in Hax.
  assert (Hgrid : axes = AxesGrid 3 (S n') /\ (2 <= S n')%nat).
  { unfold subplots in Haxes. destruct n' as [|n'']; simpl in Haxes.
    - injection Haxes as <-. discriminate Hax.
    - injection Haxes as <-. split; [reflexivity|lia]. }
  destruct Hgrid as [-> Hge]. split; [exact Hge|].
  exists g. split; [exact Hcols|].
  assert (Htr : trace (if ADD_SCALEBAR cfg
                       then add_scale_bar cfg (AxesGrid 3 (S n')) (Some g)
                       else ret tt) =
                if ADD_SCALEBAR cfg
                then [AddPatch (2%nat, (S n' - 1)%nat) (scale_bar_rect cfg (shape2 g))]
                else []).
  { destruct (ADD_SCALEBAR cfg); [|reflexivity].
    unfold add_scale_bar, axes_getitem. rewrite py_index_last. simpl.
    reflexivity. }
  rewrite Htr. unfold subplots. simpl.
  destruct n' as [|n'']; [lia|]. simpl. reflexivity.
Qed.

Ltac project_column_events :=
  unfold column_events; rewrite !flat_map_app;
  rewrite !(flat_map_only_prints _ _ (fun _ => eq_refl)) by assumption;
  match goal with
  | |- context [if ?b then _ else _] => destruct b
  end;
  rewrite ?flat_map_skips by reflexivity; reflexivity.

Lemma panels_column_events cfg c tg tr vg vr vm title :
  only_prints tg -> only_prints tr ->
  panels (column_events cfg c tg tr vg vr vm title) = cells c.
Proof. intros Hg Hr. unfold panels. project_column_events. Qed.

Lemma titles_column_events cfg c tg tr vg vr vm title :
  only_prints tg -> only_prints tr ->
  titles (column_events cfg c tg tr vg vr vm title) = [((0%nat, c), title)].
Proof. intros Hg Hr. unfold titles. project_column_events. Qed.

Lemma patches_column_events cfg c tg tr vg vr vm title :
  only_prints tg -> only_prints tr ->
  patches (column_events cfg c tg tr vg vr vm title) = [].
Proof. intros Hg Hr. unfold patches. project_column_events. Qed.

Lemma texts_column_events cfg c tg tr vg vr vm title :
  only_prints tg -> only_prints tr ->
  texts (column_events cfg c tg tr vg vr vm title) =
    if (c =? 0)%nat then combine (cells 0) (firstn 3 (ROW_LABELS cfg)) else [].
Proof.
  intros Hg Hr. unfold texts, column_events. rewrite !flat_map_app.
  rewrite !(flat_map_only_prints _ _ (fun _ => eq_refl)) by assumption.
  destruct (c =? 0)%nat; [|reflexivity].
  generalize (combine (cells 0) (firstn 3 (ROW_LABELS cfg))). intros l.
  simpl. rewrite app_nil_r.
  induction l as [|[ax s] l IH]; [reflexivity|]. simpl. f_equal. exact IH.
Qed.

Lemma flat_map_nil_in {A B : Type} (f : A -> list B) (l : list A) :
  (forall a, In a l -> f a = []) -> flat_map f l = [].
Proof.
  intros H. induction l as [|a l IH]; [reflexivity|].
  simpl. rewrite (H a (or_introl eq_refl)), IH; [reflexivity|].
  intros a' Ha'. apply H. now right.
Qed.

Lemma length_flat_map_cells (l : list nat) :
  List.length (flat_map cells l) = (3 * List.length l)%nat.
Proof. induction l as [|c l IH]; [reflexivity|]. simpl in *. lia. Qed.

(** X10.  A completed run shows exactly one image on every axes of the
    3 x n grid and on no other: the axes that received an image are, in
    order, the three of column 0, the three of column 1, and so on, 3 n
    in all. *)
Theorem generate_figure_grid (cfg : config) (imread : imread_t) :
  outcome (generate_figure cfg imread) = Ok tt ->
  panels (trace (generate_figure cfg imread)) =
    flat_map cells (seq 0 (List.length (COL_LABELS cfg))) /\
  List.length (panels (trace (generate_figure cfg imread))) =
    (3 * List.length (COL_LABELS cfg))%nat.
Proof.
  intros H. destruct (generate_figure_trace cfg imread H) as (_ & g & Hcols & Htr).
  assert (E : panels (trace (generate_figure cfg imread)) =
              flat_map cells (seq 0 (List.length (COL_LABELS cfg)))).
  { rewrite Htr. unfold panels. rewrite !flat_map_app.
    rewrite (columns_proj _ cells _ _ _) with (rg' := Some g); [| |exact Hcols].
    - destruct (ADD_SCALEBAR cfg); simpl; rewrite app_nil_r; reflexivity.
    - intros c g' Hc.
      destruct (column_trace _ _ _ _ _ Hc)
        as (r & tg & tr & vg & vr & vm & title & _ & _ & _ & _ & _ & Hg & Hr & _ & _ & _ & ->).
      apply panels_column_events; assumption. }
  split; [exact E|]. rewrite E, length_flat_map_cells, length_seq. reflexivity.
Qed.

Lemma generate_figure_grid_witness :
  panels (trace (generate_figure shipped demo_files)) =
    flat_map cells (seq 0 (List.length (COL_LABELS shipped))) /\
  List.length (panels (trace (generate_figure shipped demo_files))) =
    (3 * List.length (COL_LABELS shipped))%nat.
Proof. apply (generate_figure_grid shipped demo_files). reflexivity. Defined.

Lemma flat_map_singleton {A B : Type} (f : A -> B) (l : list A) :
  flat_map (fun a => [f a]) l = map f l.
Proof. induction l as [|a l IH]; [reflexivity|]. simpl. now rewrite IH. Qed.

Lemma combine_seq_nth (l : list string) (k : nat) :
  map (fun c => ((0%nat, c), nth (c - k) l ""%string)) (seq k (List.length l)) =
  combine (map (fun c => (0%nat, c)) (seq k (List.length l))) l.
Proof.
  revert k. induction l as [|s l IH]; intros k; [reflexivity|].
  simpl. rewrite Nat.sub_diag. f_equal. rewrite <- IH.
  apply map_ext_in. intros c Hc. apply in_seq in Hc.
  replace (c - k)%nat with (S (c - S k)) by lia. reflexivity.
Qed.

(** X11.  A completed run sets the title of the top axes of each column
    to that column's Condition label, in column order, and sets no other
    title; it writes the first three row labels into the three axes of
    column 0, top to bottom, and no other text; there are then at least
    two Conditions and at least three row labels. *)
Theorem generate_figure_labels (cfg : config) (imread : imread_t) :
  outcome (generate_figure cfg imread) = Ok tt ->
  titles (trace (generate_figure cfg imread)) =
    combine (map (fun c => (0%nat, c)) (seq 0 (List.length (COL_LABELS cfg))))
            (COL_LABELS cfg) /\
  texts (trace (generate_figure cfg imread)) =
    combine (cells 0) (firstn 3 (ROW_LABELS cfg)) /\
  (2 <= List.length (COL_LABELS cfg))%nat /\
  (3 <= List.length (ROW_LABELS cfg))%nat.
Proof.
  intros H.
  destruct (generate_figure_trace cfg imread H) as (Hn & g & Hcols & Htr).
  split; [|split; [|split; [exact Hn|]]].
  - rewrite Htr. unfold titles. rewrite !flat_map_app.
    rewrite (columns_proj _ (fun c => [((0%nat, c), nth (c - 0) (COL_LABELS cfg) ""%string)])
               _ _ _) with (rg' := Some g); [| |exact Hcols].
    + rewrite flat_map_singleton, combine_seq_nth.
      destruct (ADD_SCALEBAR cfg); simpl; rewrite app_nil_r; reflexivity.
    + intros c g' Hc.
      destruct (column_trace _ _ _ _ _ Hc)
        as (r & tg & tr & vg & vr & vm & title & _ & _ & _ & _ & _ & Hg & Hr & Ht & _ & _ & ->).
      fold (titles (column_events cfg c tg tr vg vr vm title)).
      rewrite titles_column_events by assumption.
      apply getitem_nat_inv in Ht.
      rewrite Nat.sub_0_r, (nth_error_nth _ _ _ Ht). reflexivity.
  - rewrite Htr. unfold texts. rewrite !flat_map_app.
    rewrite (columns_proj _
               (fun c => if (c =? 0)%nat
                         then combine (cells 0) (firstn 3 (ROW_LABELS cfg)) else [])
               _ _ _) with (rg' := Some g); [| |exact Hcols].
    + destruct (List.length (COL_LABELS cfg)) as [|n]; [lia|].
      cbn [seq flat_map Nat.eqb].
      rewrite (flat_map_nil_in _ (seq 1 n)).
      * destruct (ADD_SCALEBAR cfg); simpl; rewrite !app_nil_r; reflexivity.
      * intros c Hc. apply in_seq in Hc.
        destruct (Nat.eqb_spec c 0); [lia|reflexivity].
    + intros c g' Hc.
      destruct (column_trace _ _ _ _ _ Hc)
        as (r & tg & tr & vg & vr & vm & title & _ & _ & _ & _ & _ & Hg & Hr & _ & _ & _ & ->).
      fold (texts (column_events cfg c tg tr vg vr vm title)).
      apply texts_column_events; assumption.
  - destruct (List.length (COL_LABELS cfg)) as [|n] eqn:En; [lia|].
    destruct (columns_In _ _ _ _ _ _ 0%nat Hcols) as (g0 & Hg0 & _);
      [apply in_seq; lia|].
    destruct (column_trace _ _ _ _ _ Hg0)
      as (r & tg & tr & vg & vr & vm & title & _ & _ & _ & _ & _ & _ & _ & _ & _ & Hrows & _).
    apply Hrows. reflexivity.
Qed.

Lemma generate_figure_labels_witness :
  titles (trace (generate_figure shipped demo_files)) =
    [((0%nat, 0%nat), "Naive"); ((0%nat, 1%nat), "6h");
     ((0%nat, 2%nat), "24h"); ((0%nat, 3%nat), "7d")]%string /\
  texts (trace (generate_figure shipped demo_files)) =
    [((0%nat, 0%nat), "p-AKT"); ((1%nat, 0%nat), "tdTom");
     ((2%nat, 0%nat), "Merged")]%string /\
  (2 <= List.length (COL_LABELS shipped))%nat /\
  (3 <= List.length (ROW_LABELS shipped))%nat.
Proof. apply (generate_figure_labels shipped demo_files). reflexivity. Defined.

Lemma saved_column_events cfg c tg tr vg vr vm title :
  only_prints tg -> only_prints tr ->
  saved_files (column_events cfg c tg tr vg vr vm title) = [].
Proof. intros Hg Hr. unfold saved_files. project_column_events. Qed.

Lemma unsaved_saved_files (t : list event) :
  (forall f, ~ In (Savefig f) t) -> saved_files t = [].
Proof.
  intros H. induction t as [|e t IH]; [reflexivity|].
  assert (IH' : saved_files t = []) by (apply IH; intros f Hf; apply (H f); now right).
  destruct e; simpl; try exact IH'.
  exfalso. apply (H filename). now left.
Qed.

(** X12.  The figure file is written exactly when the run completes: a
    completed run calls [plt.savefig] once, with the name
    final_figure.png, and a run stopped by an exception never calls
    it. *)
Theorem generate_figure_saves_iff_completes (cfg : config) (imread : imread_t) :
  (outcome (generate_figure cfg imread) = Ok tt ->
     saved_files (trace (generate_figure cfg imread)) = ["final_figure.png"%string]) /\
  (fails (generate_figure cfg imread) ->
     saved_files (trace (generate_figure cfg imread)) = []).
Proof.
  split.
  - intros H.
    destruct (generate_figure_trace cfg imread H) as (_ & g & Hcols & Htr).
    rewrite Htr. unfold saved_files. rewrite !flat_map_app.
    rewrite (columns_proj _ (fun _ => []) _ _ _) with (rg' := Some g);
      [| |exact Hcols].
    + rewrite (flat_map_nil_in (fun _ : nat => @nil string) _ (fun _ _ => eq_refl)).
      destruct (ADD_SCALEBAR cfg); reflexivity.
    + intros c g' Hc.
      destruct (column_trace _ _ _ _ _ Hc)
        as (r & tg & tr & vg & vr & vm & title & _ & _ & _ & _ & _ & Hg & Hr & _ & _ & _ & ->).
      apply saved_column_events; assumption.
  - intros H. apply unsaved_saved_files.
    apply generate_figure_fails_unsaved, H.
Qed.

Lemma generate_figure_saves_iff_completes_witness :
  saved_files (trace (generate_figure shipped demo_files)) =
    ["final_figure.png"%string] /\
  saved_files (trace (generate_figure two_labels_one_path demo_files)) = [].
Proof.
  split.
  - apply (generate_figure_saves_iff_completes shipped demo_files). reflexivity.
  - apply (generate_figure_saves_iff_completes two_labels_one_path demo_files).
    exists IndexError. reflexivity.
Defined.

(** X13.  A completed run adds no patch when [ADD_SCALEBAR] is off, and
    exactly one when it is on: the scale bar, on the bottom axes of the
    last column, sized from the green image of that column. *)
Theorem generate_figure_patches (cfg : config) (imread : imread_t) :
  outcome (generate_figure cfg imread) = Ok tt ->
  (ADD_SCALEBAR cfg = false ->
     patches (trace (generate_figure cfg imread)) = []) /\
  (ADD_SCALEBAR cfg = true ->
     exists g,
       green_of cfg imread (List.length (COL_LABELS cfg) - 1) g /\
       patches (trace (generate_figure cfg imread)) =
         [((2%nat, (List.length (COL_LABELS cfg) - 1)%nat),
           scale_bar_rect cfg (shape2 g))]).
Proof.
  intros H.
  destruct (generate_figure_trace cfg imread H) as (Hn & g & Hcols & Htr).
  assert (Hp : patches (trace (generate_figure cfg imread)) =
               if ADD_SCALEBAR cfg
               then [((2%nat, (List.length (COL_LABELS cfg) - 1)%nat),
                      scale_bar_rect cfg (shape2 g))]
               else []).
  { rewrite Htr. unfold patches. rewrite !flat_map_app.
    rewrite (columns_proj _ (fun _ => []) _ _ _) with (rg' := Some g);
      [| |exact Hcols].
    - rewrite (flat_map_nil_in (fun _ : nat => @nil (axes_id * Rectangle)) _
                 (fun _ _ => eq_refl)).
      destruct (ADD_SCALEBAR cfg); reflexivity.
    - intros c g' Hc.
      destruct (column_trace _ _ _ _ _ Hc)
        as (r & tg & tr & vg & vr & vm & title & _ & _ & _ & _ & _ & Hg & Hr & _ & _ & _ & ->).
      apply patches_column_events; assumption. }
  split; intros Hbar; rewrite Hbar in Hp; [exact Hp|].
  exists g. split; [|exact Hp].
  apply columns_Ok in Hcols as [[E _]|(g' & _ & [= <-] & Hgreen & _)].
  - destruct (List.length (COL_LABELS cfg)); [lia|discriminate E].
  - destruct (List.length (COL_LABELS cfg)) as [|n]; [lia|].
    rewrite last_seq in Hgreen. replace (S n - 1)%nat with n by lia. exact Hgreen.
Qed.

Lemma generate_figure_patches_witness :
  exists g,
    green_of shipped demo_files 3 g /\
    patches (trace (generate_figure shipped demo_files)) =
      [((2%nat, 3%nat), scale_bar_rect shipped (shape2 g))].
Proof.
  destruct (generate_figure_patches shipped demo_files eq_refl) as [_ H].
  exact (H eq_refl).
Defined.

(** X14.  In a completed run every column shows what its two files
    hold: the top axes the green image coloured green, the middle axes
    the red image coloured red, the bottom axes the merge of the two. *)
Theorem generate_figure_panel_contents (cfg : config) (imread : imread_t) (c : nat) :
  outcome (generate_figure cfg imread) = Ok tt ->
  (c < List.length (COL_LABELS cfg))%nat ->
  exists g r vis_green vis_red vis_merge,
    green_of cfg imread c g /\ red_of cfg imread c r /\
    colorize g "green" = Ok vis_green /\ colorize r "red" = Ok vis_red /\
    create_merge g r = Ok vis_merge /\
    In (Imshow (0%nat, c) vis_green) (trace (generate_figure cfg imread)) /\
    In (Imshow (1%nat, c) vis_red) (trace (generate_figure cfg imread)) /\
    In (Imshow (2%nat, c) vis_merge) (trace (generate_figure cfg imread)).
Proof.
  intros H Hc.
  destruct (generate_figure_trace cfg imread H) as (_ & g' & Hcols & Htr).
  destruct (columns_In _ _ _ _ _ _ c Hcols) as (g & Hg & Hincl);
    [apply in_seq; lia|].
  destruct (column_trace _ _ _ _ _ Hg)
    as (r & tg & tr & vg & vr & vm & title & Hgreen & Hred & Cg & Cr & Cm & _ & _ & _ & _ & _ & E).
  exists g, r, vg, vr, vm. do 5 (split; [assumption|]).
  assert (Hin : forall e,
             In e [Imshow (0%nat, c) vg; Imshow (1%nat, c) vr; Imshow (2%nat, c) vm] ->
             In e (trace (generate_figure cfg imread))).
  { intros e He. rewrite Htr. apply in_or_app. right. apply in_or_app. left.
    apply Hincl. rewrite E. unfold column_events.
    apply in_or_app. right. apply in_or_app. right. apply in_or_app. left.
    exact He. }
  repeat split; apply Hin; simpl; auto.
Qed.

Lemma generate_figure_panel_contents_witness :
  exists g r vis_green vis_red vis_merge,
    green_of shipped demo_files 2 g /\ red_of shipped demo_files 2 r /\
    colorize g "green" = Ok vis_green /\ colorize r "red" = Ok vis_red /\
    create_merge g r = Ok vis_merge /\
    In (Imshow (0%nat, 2%nat) vis_green) (trace (generate_figure shipped demo_files)) /\
    In (Imshow (1%nat, 2%nat) vis_red) (trace (generate_figure shipped demo_files)) /\
    In (Imshow (2%nat, 2%nat) vis_merge) (trace (generate_figure shipped demo_files)).
Proof.
  apply (generate_figure_panel_contents shipped demo_files 2).
  - reflexivity.
  - simpl. lia.
Defined.

(** ** When a run completes *)



Lemma create_merge_Ok_iff (a b : ndarray2) :
  (exists m, create_merge a b = Ok m) <-> fits a b.
Proof.
  unfold create_merge, set_channel. simpl. rewrite !broadcastable_refl. simpl.
  rewrite <- fits_spec.
  destruct (broadcastable (nrows a) (nrows b) && broadcastable (ncols a) (ncols b)).
  - split; [reflexivity|]. intros _. eexists. simpl. reflexivity.
  - split; [intros [m Hm]; discriminate Hm|discriminate].
Qed.






(** ** Runs that stop *)

Lemma fails_bind_Ok {A B : Type} (m : M A) (k : A -> M B) :
  (forall a, outcome m = Ok a -> fails (k a)) -> fails (bind m k).
Proof.
  intros H. destruct m as [t [a|e]].
  - destruct (H a eq_refl) as [e He]. exists e. unfold bind.
    destruct (k a) as [t' r]. exact He.
  - exists e. reflexivity.
Qed.

Lemma nodraw_bind {A B : Type} (m : M A) (k : A -> M B) :
  nodraw m -> (forall a, outcome m = Ok a -> nodraw (k a)) -> nodraw (bind m k).
Proof.
  intros Hm Hk ev. destruct m as [t [a|e]]; unfold bind.
  - specialize (Hk a eq_refl ev). destruct (k a) as [t' r]. simpl in *.
    intros Hin. apply in_app_or in Hin as [Hin|Hin]; auto.
  - exact (Hm ev).
Qed.

Lemma nodraw_stops {A B : Type} (m : M A) (k : A -> M B) :
  nodraw m -> fails m -> nodraw (bind m k).
Proof.
  intros Hm [e He] ev. destruct m as [t [a|e']]; simpl in He; [discriminate|].
  exact (Hm ev).
Qed.

Lemma nodraw_lift {A : Type} (r : result A) : nodraw (lift r).
Proof. intros ev []. Qed.

Lemma nodraw_emit (e : event) : draws e = false -> nodraw (emit e).
Proof. intros H ev [<-|[]]. exact H. Qed.

Lemma nodraw_load (imread : imread_t) (filepath : string) :
  nodraw (load_and_normalize imread filepath).
Proof.
  intros ev Hev. destruct (only_prints_load imread filepath ev Hev) as [s ->].
  reflexivity.
Qed.

(** A pass of the loop body over the squeezed, one-dimensional array of
    axes stops at its first [axes[0, col_idx]], before any drawing. *)
Lemma column_vector_stops (cfg : config) (imread : imread_t) (n : nat)
    (vertical : bool) (c : nat) :
  fails (column cfg imread (AxesVector n vertical) c) /\
  nodraw (column cfg imread (AxesVector n vertical) c).
Proof.
  unfold column. cbv zeta. split.
  - do 9 skip_step. apply fails_bind_l. apply fails_lift.
  - do 4 (apply nodraw_bind; [apply nodraw_lift|intros ? _]).
    do 2 (apply nodraw_bind; [apply nodraw_load|intros ? _]).
    do 3 (apply nodraw_bind; [apply nodraw_lift|intros ? _]).
    apply nodraw_stops; [apply nodraw_lift|apply fails_lift].
Qed.

(** X16.  With exactly one Condition the run never draws anything: the
    3 x 1 grid of axes comes back as a one-dimensional array, the first
    [axes[0, col_idx]] raises, and the run stops with nothing on the
    canvas and no file written. *)
Theorem single_condition_stops (cfg : config) (imread : imread_t) :
  List.length (COL_LABELS cfg) = 1%nat ->
  fails (generate_figure cfg imread) /\
  nodraw (generate_figure cfg imread) /\
  unsaved (generate_figure cfg imread).
Proof.
  intros Hn.
  assert (Hf : fails (generate_figure cfg imread)).
  { unfold generate_figure. rewrite Hn.
    apply fails_bind_Ok. intros axes [= <-].
    do 2 skip_step. apply fails_bind_l. simpl.
    apply fails_bind_l. apply column_vector_stops. }
  split; [exact Hf|]. split; [|apply generate_figure_fails_unsaved, Hf].
  unfold generate_figure. rewrite Hn.
  apply nodraw_bind.
  { intros ev [<-|[]]. reflexivity. }
  intros axes [= <-].
  apply nodraw_bind; [apply nodraw_emit; reflexivity|intros _ _].
  apply nodraw_bind; [apply nodraw_emit; reflexivity|intros _ _].
  apply nodraw_stops.
  - simpl. apply nodraw_stops; apply column_vector_stops.
  - simpl. apply fails_bind_l. apply column_vector_stops.
Qed.

Lemma single_condition_stops_witness :
  fails (generate_figure one_label demo_files) /\
  nodraw (generate_figure one_label demo_files) /\
  unsaved (generate_figure one_label demo_files).
Proof. apply (single_condition_stops one_label demo_files). reflexivity. Defined.

(** X17.  When in some column the red image does not fit the shape of
    the green image the merge raises and the whole run stops without
    writing the figure.  The placeholder of a missing file counts: it is
    100 x 100 whatever the size of the image it stands next to. *)
Theorem shape_mismatch_stops (cfg : config) (imread : imread_t) (c : nat)
    (g r : ndarray2) :
  (c < List.length (COL_LABELS cfg))%nat ->
  green_of cfg imread c g -> red_of cfg imread c r ->
  ~ fits g r ->
  fails (generate_figure cfg imread) /\ unsaved (generate_figure cfg imread).
Proof.
  intros Hc (greens & g_path & G1 & G2 & G3) (reds & r_path & R1 & R2 & R3) Hfit.
  assert (Hf : fails (generate_figure cfg imread)).
  { apply (generate_figure_fails_at cfg imread c Hc). intros axes.
    unfold column. cbv zeta.
    rewrite G1, bind_lift_Ok, G2, bind_lift_Ok, R1, bind_lift_Ok, R2, bind_lift_Ok.
    apply fails_bind_Ok. intros g' Hg'. rewrite G3 in Hg'. injection Hg' as <-.
    apply fails_bind_Ok. intros r' Hr'. rewrite R3 in Hr'. injection Hr' as <-.
    do 2 skip_step. apply fails_bind_l.
    destruct (create_merge g r) as [m|e] eqn:E.
    - exfalso. apply Hfit, create_merge_Ok_iff. eauto.
    - apply fails_lift. }
  split; [exact Hf|apply generate_figure_fails_unsaved, Hf].
Qed.

Lemma shape_mismatch_stops_witness :
  fails (generate_figure one_red_missing demo_files) /\
  unsaved (generate_figure one_red_missing demo_files).
Proof.
  destruct (load_and_normalize demo_files "a.tif") as [t [g|e]] eqn:E;
    [|discriminate E].
  apply (shape_mismatch_stops one_red_missing demo_files 0 g (zeros2 100 100)).
  - simpl. lia.
  - exists ["a.tif"; "a.tif"]%string, "a.tif"%string.
    repeat split; try reflexivity. rewrite E. reflexivity.
  - exists ["gone.tif"; "a.tif"]%string, "gone.tif"%string.
    repeat split; reflexivity.
  - injection E as _ <-. intros [[H|H] _]; discriminate H.
Defined.

(** ** Where the scale bar sits *)

(** X18.  Whatever the bar length, the right end of the bar is at 95% of
    the image width, its top at 90% of the image height, and it is 2% of
    the image height tall; the bar starts left of the image exactly when
    it is longer than 95% of the image width. *)
Theorem scale_bar_anchor (cfg : config) (h w : nat) :
  let r := scale_bar_rect cfg (h, w) in
  let img_h := inject_Z (Z.of_nat h) in
  let img_w := inject_Z (Z.of_nat w) in
  rect_x r + rect_width r == 0.95 * img_w /\
  rect_y r == 0.9 * img_h /\
  rect_height r == 0.02 * img_h /\
  (rect_x r < 0 <-> 0.95 * img_w < bar_len_px cfg).
Proof.
  unfold scale_bar_rect. simpl.
  repeat split; try ring; intros H; lra.
Qed.

Lemma scale_bar_anchor_witness :
  rect_x (scale_bar_rect shipped (100%nat, 100%nat)) < 0.
Proof.
  apply (scale_bar_anchor shipped 100 100). reflexivity.
Defined.

(** ** Surplus entries in the configuration *)

Lemma bind_ext {A B : Type} (m : M A) (k k' : A -> M B) :
  (forall a, k a = k' a) -> bind m k = bind m k'.
Proof.
  intros H. destruct m as [t [a|e]]; [|reflexivity].
  unfold bind. rewrite (H a). reflexivity.
Qed.

Lemma getitem_app {A : Type} (l x : list A) (c : nat) :
  (c < List.length l)%nat ->
  getitem (l ++ x) (Z.of_nat c) = getitem l (Z.of_nat c).
Proof.
  intros H. unfold getitem. rewrite !py_index_nat, length_app.
  destruct (Nat.ltb_spec c (List.length l + List.length x)); [|lia].
  destruct (Nat.ltb_spec c (List.length l)); [|lia].
  simpl. rewrite nth_error_app1 by exact H. reflexivity.
Qed.

Lemma column_with_extras (cfg : config) (imread : imread_t) (axes : axes_array)
    (greens reds more_greens more_reds : list string)
    (more_rows : list (list string)) (more_labels : list string) (c : nat) :
  file_matrix cfg = [greens; reds] ->
  (c < List.length greens)%nat -> (c < List.length reds)%nat ->
  (3 <= List.length (ROW_LABELS cfg))%nat ->
  column (with_extras cfg greens reds more_greens more_reds more_rows more_labels)
    imread axes c =
  column cfg imread axes c.
Proof.
  intros Hfm Hg Hr Hrows. unfold column. cbv zeta. simpl file_matrix.
  rewrite Hfm.
  pose proof (getitem_nat_ok ((greens ++ more_greens) :: (reds ++ more_reds) :: more_rows)
                0 _ eq_refl) as G0.
  pose proof (getitem_nat_ok ((greens ++ more_greens) :: (reds ++ more_reds) :: more_rows)
                1 _ eq_refl) as G1.
  pose proof (getitem_nat_ok [greens; reds] 0 _ eq_refl) as G0'.
  pose proof (getitem_nat_ok [greens; reds] 1 _ eq_refl) as G1'.
  simpl Z.of_nat in G0, G1, G0', G1'.
  rewrite G0, G0', !bind_lift_Ok, (getitem_app greens more_greens c Hg).
  apply bind_ext. intros g_path.
  rewrite G1, G1', !bind_lift_Ok, (getitem_app reds more_reds c Hr).
  do 15 (apply bind_ext; intros ?).
  simpl ROW_LABELS. simpl COL_LABELS.
  f_equal. destruct (c =? 0)%nat; [|reflexivity].
  change 0%Z with (Z.of_nat 0). change 1%Z with (Z.of_nat 1).
  change 2%Z with (Z.of_nat 2).
  rewrite !getitem_app by lia. reflexivity.
Qed.

Lemma columns_with_extras (cfg : config) (imread : imread_t) (axes : axes_array)
    (greens reds more_greens more_reds : list string)
    (more_rows : list (list string)) (more_labels : list string)
    (cols : list nat) (rg : option ndarray2) :
  file_matrix cfg = [greens; reds] ->
  (forall c, In c cols -> (c < List.length greens)%nat /\ (c < List.length reds)%nat) ->
  (3 <= List.length (ROW_LABELS cfg))%nat ->
  columns (with_extras cfg greens reds more_greens more_reds more_rows more_labels)
    imread axes cols rg =
  columns cfg imread axes cols rg.
Proof.
  intros Hfm Hcols Hrows. revert rg.
  induction cols as [|c cols IH]; intros rg; [reflexivity|].
  simpl. destruct (Hcols c (or_introl eq_refl)) as [Hg Hr].
  rewrite (column_with_extras _ _ _ _ _ _ _ _ _ _ Hfm Hg Hr Hrows).
  apply bind_ext. intros g. apply IH. intros c' Hc'. apply Hcols. now right.
Qed.

(** X19.  Surplus configuration entries are ignored without a word: when
    the two rows of paths are at least as long as the Condition list and
    there are at least three row labels, appending further paths to
    either row, further rows to the matrix or further row labels changes
    neither the outcome of the run nor any of its events. *)
Theorem surplus_entries_ignored (cfg : config) (imread : imread_t)
    (greens reds more_greens more_reds : list string)
    (more_rows : list (list string)) (more_labels : list string) :
  file_matrix cfg = [greens; reds] ->
  (List.length (COL_LABELS cfg) <= List.length greens)%nat ->
  (List.length (COL_LABELS cfg) <= List.length reds)%nat ->
  (3 <= List.length (ROW_LABELS cfg))%nat ->
  generate_figure
    (with_extras cfg greens reds more_greens more_reds more_rows more_labels) imread =
  generate_figure cfg imread.
Proof.
  intros Hfm Hg Hr Hrows. unfold generate_figure. simpl COL_LABELS.
  apply bind_ext. intros axes. do 2 (apply bind_ext; intros ?).
  rewrite (columns_with_extras _ _ _ _ _ _ _ _ _ _ _ Hfm); [reflexivity| |exact Hrows].
  intros c Hc. apply in_seq in Hc. lia.
Qed.

Lemma surplus_entries_ignored_witness :
  generate_figure
    (with_extras two_conditions ["a.tif"; "gone.tif"] ["a.tif"; "gone.tif"]
       ["x.tif"] ["y.tif"; "z.tif"] [["w.tif"]] ["Extra"])%string demo_files =
  generate_figure two_conditions demo_files.
Proof.
  apply (surplus_entries_ignored two_conditions demo_files);
    simpl; try reflexivity; lia.
Defined.

(** ** Missing files in a column *)

(** X20.  A column whose two files are both missing is loaded, coloured
    and merged without error, and its three panels are black: arrays of
    shape 100 x 100 x 3 with every sample 0. *)
Theorem missing_files_black_panels (imread : imread_t) (g_path r_path : string) :
  imread g_path = Raise FileNotFoundError ->
  imread r_path = Raise FileNotFoundError ->
  exists g r vis_green vis_red vis_merge,
    outcome (load_and_normalize imread g_path) = Ok g /\
    outcome (load_and_normalize imread r_path) = Ok r /\
    colorize g "green" = Ok vis_green /\ colorize r "red" = Ok vis_red /\
    create_merge g r = Ok vis_merge /\
    shape3 vis_green = (100%nat, 100%nat, 3%nat) /\
    shape3 vis_red = (100%nat, 100%nat, 3%nat) /\
    shape3 vis_merge = (100%nat, 100%nat, 3%nat) /\
    forall i j k,
      get3 vis_green i j k = 0 /\ get3 vis_red i j k = 0 /\
      get3 vis_merge i j k = 0.
Proof.
  intros Hg Hr. unfold load_and_normalize. rewrite Hg, Hr.
  do 5 eexists. repeat (split; [reflexivity|]).
  intros i j k. simpl.
  destruct (k =? 1)%nat; destruct (k =? 0)%nat; repeat split; reflexivity.
Qed.

Lemma missing_files_black_panels_witness :
  exists g r vis_green vis_red vis_merge,
    outcome (load_and_normalize demo_files "gone_g.tif") = Ok g /\
    outcome (load_and_normalize demo_files "gone_r.tif") = Ok r /\
    colorize g "green" = Ok vis_green /\ colorize r "red" = Ok vis_red /\
    create_merge g r = Ok vis_merge /\
    shape3 vis_green = (100%nat, 100%nat, 3%nat) /\
    shape3 vis_red = (100%nat, 100%nat, 3%nat) /\
    shape3 vis_merge = (100%nat, 100%nat, 3%nat) /\
    forall i j k,
      get3 vis_green i j k = 0 /\ get3 vis_red i j k = 0 /\
      get3 vis_merge i j k = 0.
Proof.
  apply (missing_files_black_panels demo_files "gone_g.tif" "gone_r.tif");
    reflexivity.
Defined.
